(** * go.tftp: the TFTP packet codec and the write-transfer reader

    A shallow embedding of [packet/packet.go] and [server.go].

    - [Module packet] follows [packet/packet.go]: the five packet structs,
      byte-order detection in [ReadPacket], the per-variant [readFrom]
      parsers, [readString] and [writeString].
    - [Module tftp] follows [server.go]: [PutReq.Read] and [handleClient].

    Go's [io.Reader] is taken to be an in-memory reader over the datagram
    ([bytes.Reader], [bytes.Buffer]): the state of the reader is the list
    of bytes not yet consumed.  Go's [uint16] is a [Z]; a value that comes
    out of two bytes is in range by construction. *)

From Stdlib Require Import ZArith List Lia Bool.
From Stdlib Require Import Strings.Byte.
Import ListNotations.
Local Open Scope Z_scope.

Module packet.

(** ** Constants *)

Definition RRQ : Z := 1.
Definition WRQ : Z := 2.
Definition DATA : Z := 3.
Definition ACK : Z := 4.
Definition ERROR : Z := 5.

Definition ErrNotDefined : Z := 0.
Definition ErrFileNotFound : Z := 1.
Definition ErrAccess : Z := 2.
Definition ErrDiskFull : Z := 3.
Definition ErrIllegalOp : Z := 4.
Definition ErrUnknownTID : Z := 5.
Definition ErrFileExists : Z := 6.
Definition ErrBadUser : Z := 7.

(** ** Data model *)

Definition uint16 : Type := Z.

(** A Go [string] is an immutable sequence of bytes; it may hold a NUL. *)
Definition gostring : Type := list byte.

Record Rq : Type := mkRq { Filename : gostring; Mode : gostring }.

Record Data : Type := mkData { Data_BlockNum : uint16; Data_Data : list byte }.

Record Ack : Type := mkAck { Ack_BlockNum : uint16 }.

Record Error : Type := mkError { ErrorCode : uint16; ErrorMsg : gostring }.

(** The dynamic types behind the [Packet] interface: [*Rrq], [*Wrq],
    [*Data], [*Ack], [*Error].  An interface value is an [option Packet],
    [None] being Go's [nil]. *)
Inductive Packet : Type :=
| PRrq (rq : Rq)
| PWrq (rq : Rq)
| PData (d : Data)
| PAck (a : Ack)
| PError (e : Error).

Definition iface : Type := option Packet.

Inductive ByteOrder : Type := LittleEndian | BigEndian.

(** Values of Go's [error] interface.  [io_EOF] and [io_ErrUnexpectedEOF]
    are the two the reader produces, and the only ones the source ever
    returns.  [MalformedPacket], [UnknownOpcode] and [IllegalOperation] are
    the names of the specification's taxonomy; the source constructs none
    of them, they are here so that a statement can mention them. *)
Inductive error : Type :=
| io_EOF
| io_ErrUnexpectedEOF
| MalformedPacket
| UnknownOpcode
| IllegalOperation.

(** ** Bytes and 16-bit integers *)

Definition byte_to_Z (b : byte) : Z := Z.of_N (Byte.to_N b).

(** Go's conversion [byte(v)]: the low eight bits. *)
Definition byte_of_Z (v : Z) : byte :=
  match Byte.of_N (Z.to_N (Z.land v 255)) with
  | Some b => b
  | None => x00
  end.

(** [binary.LittleEndian.Uint16] and [binary.BigEndian.Uint16]. *)
Definition Uint16 (order : ByteOrder) (b : list byte) : uint16 :=
  match order, b with
  | LittleEndian, b0 :: b1 :: _ => Z.lor (byte_to_Z b0) (Z.shiftl (byte_to_Z b1) 8)
  | BigEndian, b0 :: b1 :: _ => Z.lor (byte_to_Z b1) (Z.shiftl (byte_to_Z b0) 8)
  | _, _ => 0
  end.

(** [binary.LittleEndian.PutUint16] and [binary.BigEndian.PutUint16]. *)
Definition PutUint16 (order : ByteOrder) (v : uint16) : list byte :=
  match order with
  | LittleEndian => [byte_of_Z v; byte_of_Z (Z.shiftr v 8)]
  | BigEndian => [byte_of_Z (Z.shiftr v 8); byte_of_Z v]
  end.

(** ** The reader *)

Definition Reader : Type := list byte.

(** [r.Read(p)] with [len(p) = n], [n > 0]: at the end of the input it
    returns [0, io.EOF]; otherwise it copies what is there, up to [n]
    bytes, and returns no error. *)
Definition Read (r : Reader) (n : nat) : list byte * option error * Reader :=
  match r with
  | [] => ([], Some io_EOF, [])
  | _ :: _ => (firstn n r, None, skipn n r)
  end.

(** [io.ReadFull(r, buf)] with [len(buf) = n]: exactly [n] bytes, or
    [io.EOF] when nothing could be read, or [io.ErrUnexpectedEOF] when the
    input ended after some but not all of them. *)
Definition io_ReadFull (r : Reader) (n : nat) : list byte * option error * Reader :=
  match r with
  | [] => ([], Some io_EOF, [])
  | _ :: _ =>
      if (length r <? n)%nat
      then (r, Some io_ErrUnexpectedEOF, [])
      else (firstn n r, None, skipn n r)
  end.

(** [binary.Read(r, order, &data)] for [data] a [uint16]: on an error
    [data] keeps its value. *)
Definition binary_Read (r : Reader) (order : ByteOrder) (data : uint16)
  : uint16 * option error * Reader :=
  let '(bs, err, r') := io_ReadFull r 2 in
  match err with
  | Some e => (data, Some e, r')
  | None => (Uint16 order bs, None, r')
  end.

(** The built-in [copy(dst, src)], as the resulting [dst]. *)
Definition copy (dst src : list byte) : list byte :=
  firstn (length dst) src ++ skipn (length src) dst.

(** ** readString

    One byte is read at a time ([ch] has length one); every byte that is
    not NUL goes to [buf]; the NUL ends the loop and [*s] receives the
    buffer.  When the reader fails, the error is returned and [*s] is
    left as it was.  [readString_loop] is the function from the first
    [r.Read(ch)] on, with [buf] what has been written so far. *)
Fixpoint readString_loop (r : Reader) (buf : list byte) (s : gostring)
  : gostring * option error * Reader :=
  match r with
  | [] => (s, Some io_EOF, [])
  | ch :: r' =>
      if Byte.eqb ch x00
      then (buf, None, r')
      else readString_loop r' (buf ++ [ch]) s
  end.

Definition readString (r : Reader) (s : gostring) : gostring * option error * Reader :=
  readString_loop r [] s.

(** ** The writer and writeString

    The sink is a growing buffer ([bytes.Buffer]): [Write] appends and
    reports the number of bytes, without error. *)
Definition Writer : Type := list byte.

Definition Write (w : Writer) (p : list byte) : Z * option error * Writer :=
  (Z.of_nat (length p), None, w ++ p).

Definition writeString (s : gostring) (w : Writer) : Z * option error * Writer :=
  let '(nS, err, w1) := Write w s in
  match err with
  | Some e => (nS, Some e, w1)
  | None =>
      let '(n0, err, w2) := Write w1 [x00] in
      (nS + n0, err, w2)
  end.

(** ** The readFrom methods

    Each takes the receiver as it is before the call and returns it as it
    is after, with the error and the reader. *)

Definition Rq_readFrom (rq : Rq) (r : Reader) (order : ByteOrder)
  : Rq * option error * Reader :=
  let '(f, err, r1) := readString r (Filename rq) in
  match err with
  | Some e => (mkRq f (Mode rq), Some e, r1)
  | None =>
      let '(m, err, r2) := readString r1 (Mode rq) in
      (mkRq f m, err, r2)
  end.

Definition Data_readFrom (d : Data) (r : Reader) (order : ByteOrder)
  : Data * option error * Reader :=
  let '(bn, err, r1) := binary_Read r order (Data_BlockNum d) in
  match err with
  | Some e => (mkData bn (Data_Data d), Some e, r1)
  | None =>
      let buf := repeat x00 512 in
      let '(got, err, r2) := Read r1 512 in
      (mkData bn (copy buf got), err, r2)
  end.

Definition Ack_readFrom (a : Ack) (r : Reader) (order : ByteOrder)
  : Ack * option error * Reader :=
  let '(bn, err, r1) := binary_Read r order (Ack_BlockNum a) in
  (mkAck bn, err, r1).

Definition Error_readFrom (e : Error) (r : Reader) (order : ByteOrder)
  : Error * option error * Reader :=
  let '(c, err, r1) := binary_Read r order (ErrorCode e) in
  match err with
  | Some x => (mkError c (ErrorMsg e), Some x, r1)
  | None =>
      let '(m, err, r2) := readString r1 (ErrorMsg e) in
      (mkError c m, err, r2)
  end.

(** Dynamic dispatch of [ret.readFrom(r, order)] on a non-nil [ret]. *)
Definition readFrom (p : Packet) (r : Reader) (order : ByteOrder)
  : Packet * option error * Reader :=
  match p with
  | PRrq rq => let '(x, err, r') := Rq_readFrom rq r order in (PRrq x, err, r')
  | PWrq rq => let '(x, err, r') := Rq_readFrom rq r order in (PWrq x, err, r')
  | PData d => let '(x, err, r') := Data_readFrom d r order in (PData x, err, r')
  | PAck a => let '(x, err, r') := Ack_readFrom a r order in (PAck x, err, r')
  | PError e => let '(x, err, r') := Error_readFrom e r order in (PError x, err, r')
  end.

(** ** ReadPacket *)

(** The [switch Opcode] of [ReadPacket]: it has no default, so [ret]
    stays [nil] for any other value. *)
Definition newPacket (Opcode : uint16) : iface :=
  if Opcode =? RRQ then Some (PRrq (mkRq [] []))
  else if Opcode =? WRQ then Some (PWrq (mkRq [] []))
  else if Opcode =? DATA then Some (PData (mkData 0 []))
  else if Opcode =? ACK then Some (PAck (mkAck 0))
  else if Opcode =? ERROR then Some (PError (mkError 0 []))
  else None.

(** The byte-order test on the opcode read as little-endian. *)
Definition detect (Opcode : uint16) : uint16 * ByteOrder :=
  if ERROR <? Opcode
  then (Z.shiftr Opcode 8, BigEndian)
  else (Opcode, LittleEndian).

(** What a call of [ReadPacket] does: it returns its three results, or
    the goroutine panics on the method call through a nil interface. *)
Inductive Result : Type :=
| Return (ret : iface) (order : option ByteOrder) (err : option error)
| Panic.

Definition ReadPacket (r : Reader) : Result * Reader :=
  let '(Opcode, err, r1) := binary_Read r LittleEndian 0 in
  match err with
  | Some e => (Return None None (Some e), r1)
  | None =>
      let '(Opcode, order) := detect Opcode in
      match newPacket Opcode with
      | None => (Panic, r1)
      | Some ret =>
          let '(ret, err, r2) := readFrom ret r1 order in
          (Return (Some ret) (Some order) err, r2)
      end
  end.

(** ** Encoding *)

(** [binary.Write(w, order, v)] for [v] a [uint16]. *)
Definition binary_Write (w : Writer) (order : ByteOrder) (v : uint16)
  : Z * option error * Writer :=
  Write w (PutUint16 order v).

(** The opcode of each variant, as the [switch] of [ReadPacket] pairs
    them. *)
Definition opcodeOf (p : Packet) : uint16 :=
  match p with
  | PRrq _ => RRQ
  | PWrq _ => WRQ
  | PData _ => DATA
  | PAck _ => ACK
  | PError _ => ERROR
  end.

(** Modelled from the spec: the encoder, which the source does not have
    (it has only the helper [writeString]).  The opcode is written first in
    the given order, then the fields of the variant in wire order; a string
    goes through [writeString], raw bytes and then one NUL; a Data payload
    is written as it is, with no terminator. *)
Definition Encode_fields (p : Packet) (order : ByteOrder) (w : Writer)
  : Z * option error * Writer :=
  match p with
  | PRrq rq | PWrq rq =>
      let '(n1, err, w1) := writeString (Filename rq) w in
      match err with
      | Some e => (n1, Some e, w1)
      | None =>
          let '(n2, err, w2) := writeString (Mode rq) w1 in
          (n1 + n2, err, w2)
      end
  | PData d =>
      let '(n1, err, w1) := binary_Write w order (Data_BlockNum d) in
      match err with
      | Some e => (n1, Some e, w1)
      | None =>
          let '(n2, err, w2) := Write w1 (Data_Data d) in
          (n1 + n2, err, w2)
      end
  | PAck a => binary_Write w order (Ack_BlockNum a)
  | PError e =>
      let '(n1, err, w1) := binary_Write w order (ErrorCode e) in
      match err with
      | Some x => (n1, Some x, w1)
      | None =>
          let '(n2, err, w2) := writeString (ErrorMsg e) w1 in
          (n1 + n2, err, w2)
      end
  end.

(** Modelled from the spec: [Encode(Packet, ByteOrder, sink)], missing
    from the source, returning the number of bytes written, the error and
    the sink. *)
Definition Encode (p : Packet) (order : ByteOrder) (w : Writer)
  : Z * option error * Writer :=
  let '(n0, err, w0) := binary_Write w order (opcodeOf p) in
  match err with
  | Some e => (n0, Some e, w0)
  | None =>
      let '(n1, err, w1) := Encode_fields p order w0 in
      (n0 + n1, err, w1)
  end.

(** The bytes of the datagram that encodes [p]. *)
Definition Encode_bytes (p : Packet) (order : ByteOrder) : list byte :=
  snd (Encode p order []).

End packet.

Module tftp.

Import packet.

(** ** Channels

    A channel of [packet.Packet] is seen from one transfer as the queue of
    interface values in it: the inbound channel holds what has arrived and
    has not been received yet, the outbound channel what has been sent.  A
    receive from an empty inbound channel blocks. *)
Definition chan : Type := list iface.

Record GetReq : Type := mkGetReq {
  GetReq_in : chan;
  GetReq_out : chan;
  GetReq_data : list byte
}.

Record PutReq : Type := mkPutReq {
  in_ : chan;
  out : chan;
  data : list byte
}.

(** ** PutReq.Read *)

(** One execution of the body of the [for] loop. *)
Inductive Step : Type :=
| Next (r : PutReq)
| Panics (v : Z) (r : PutReq)
| Blocks (r : PutReq).

Definition Read_body (r : PutReq) : Step :=
  if (length (data r) =? 0)%nat then
    match in_ r with
    | [] => Blocks r
    | pkt :: rest =>
        match pkt with
        | Some (PData dataPkt) => Next (mkPutReq rest (out r) (Data_Data dataPkt))
        | _ => Panics 4 (mkPutReq rest (out r) (data r))
        end
    end
  else Next r.

(** What a call of [Read] has come to after at most [fuel] executions of
    the loop body: it has returned its named results [n] and [err], which
    nothing ever assigns; or it has panicked; or it is blocked on the
    receive; or it is still in the loop, the test [soFar < goal] true. *)
Inductive Outcome : Type :=
| Returned (n : Z) (err : option error) (r : PutReq)
| Panicked (v : Z) (r : PutReq)
| Blocked (soFar : nat) (r : PutReq)
| Looping (soFar : nat) (r : PutReq).

Fixpoint Read_loop (fuel : nat) (goal soFar : nat) (r : PutReq) : Outcome :=
  if (soFar <? goal)%nat then
    match fuel with
    | O => Looping soFar r
    | S fuel' =>
        match Read_body r with
        | Next r' => Read_loop fuel' goal soFar r'
        | Panics v r' => Panicked v r'
        | Blocks r' => Blocked soFar r'
        end
    end
  else Returned 0 None r.

Definition PutReq_Read (fuel : nat) (r : PutReq) (p : list byte) : Outcome :=
  let goal := length p in
  let soFar := 0%nat in
  Read_loop fuel goal soFar r.

(** The transfer as the outcome leaves it. *)
Definition final (o : Outcome) : PutReq :=
  match o with
  | Returned _ _ r | Panicked _ r | Blocked _ r | Looping _ r => r
  end.

(** ** handleClient *)

Inductive ClientOutcome : Type :=
| ClientReturned (in' out' : chan)
| ClientWaiting.

Section HandleClient.

(** [handleWrite] is called and not defined in the source: whatever it
    does with the request is a parameter. *)
Variable handleWrite : Rq -> chan -> chan -> ClientOutcome.

Definition handleClient (in0 out0 : chan) : ClientOutcome :=
  match in0 with
  | [] => ClientWaiting
  | pkt :: rest =>
      match pkt with
      | Some (PRrq _) => ClientReturned rest out0
      | Some (PWrq p) => handleWrite p rest out0
      | _ => ClientReturned rest out0
      end
  end.

End HandleClient.

End tftp.

Import packet tftp.

(** * Vocabulary of the statements *)

Definition is_uint16 (v : Z) : Prop := 0 <= v < 65536.

(** Every [uint16] field of the packet holds a 16-bit value, as Go's type
    has it. *)
Definition uint16_fields (p : Packet) : Prop :=
  match p with
  | PRrq _ | PWrq _ => True
  | PData d => is_uint16 (Data_BlockNum d)
  | PAck a => is_uint16 (Ack_BlockNum a)
  | PError e => is_uint16 (ErrorCode e)
  end.

(** No string field of the packet holds a NUL byte. *)
Definition NUL_free_strings (p : Packet) : Prop :=
  match p with
  | PRrq rq | PWrq rq => ~ In x00 (Filename rq) /\ ~ In x00 (Mode rq)
  | PError e => ~ In x00 (ErrorMsg e)
  | PData _ | PAck _ => True
  end.

(** A Data packet carries a payload of exactly 512 bytes. *)
Definition full_block (p : Packet) : Prop :=
  match p with
  | PData d => length (Data_Data d) = 512%nat
  | _ => True
  end.

(** The wire layout of the fields that follow the opcode. *)
Definition wire_fields (p : Packet) (order : ByteOrder) : list byte :=
  match p with
  | PRrq rq | PWrq rq => Filename rq ++ x00 :: Mode rq ++ [x00]
  | PData d => PutUint16 order (Data_BlockNum d) ++ Data_Data d
  | PAck a => PutUint16 order (Ack_BlockNum a)
  | PError e => PutUint16 order (ErrorCode e) ++ ErrorMsg e ++ [x00]
  end.

(** An inbound interface value that is a Data packet with no payload. *)
Definition empty_Data (pkt : iface) : Prop :=
  exists d, pkt = Some (PData d) /\ Data_Data d = [].

(** The error of [io.ReadFull] on an input too short for the buffer. *)
Definition short_read_error (r : Reader) : error :=
  match r with
  | [] => io_EOF
  | _ :: _ => io_ErrUnexpectedEOF
  end.

(** Closes [~ In x00 l] and conjunctions of it on a concrete [l]. *)
Ltac NUL_free := cbn; intuition discriminate.

(** * Properties *)

(** ** Sanity checks on concrete datagrams *)

Example ex_rrq_le :
  ReadPacket (Encode_bytes (PRrq (mkRq [x61; x2e; x74] [x6f])) LittleEndian)
  = (Return (Some (PRrq (mkRq [x61; x2e; x74] [x6f]))) (Some LittleEndian) None, []).
Proof. reflexivity. Qed.

Example ex_ack_be :
  ReadPacket (Encode_bytes (PAck (mkAck 515)) BigEndian)
  = (Return (Some (PAck (mkAck 515))) (Some BigEndian) None, []).
Proof. reflexivity. Qed.

(** ** Bytes and 16-bit integers *)

Lemma byte_to_Z_range (b : byte) : 0 <= byte_to_Z b < 256.
Proof.
  unfold byte_to_Z. pose proof (Byte.to_N_bounded b) as H.
  lia.
Qed.

Lemma byte_of_to_Z (b : byte) : byte_of_Z (byte_to_Z b) = b.
Proof.
  unfold byte_of_Z. change 255 with (Z.ones 8).
  rewrite Z.land_ones by lia.
  rewrite Z.mod_small by (apply byte_to_Z_range).
  unfold byte_to_Z. rewrite N2Z.id, Byte.of_to_N. reflexivity.
Qed.

Lemma byte_to_of_Z (v : Z) : byte_to_Z (byte_of_Z v) = v mod 256.
Proof.
  unfold byte_of_Z, byte_to_Z. change 255 with (Z.ones 8).
  rewrite Z.land_ones by lia. change (2 ^ 8) with 256.
  pose proof (Z.mod_pos_bound v 256 ltac:(lia)) as Hb.
  destruct (Byte.of_N (Z.to_N (v mod 256))) as [b|] eqn:E.
  - apply Byte.to_of_N in E. rewrite E. lia.
  - apply Byte.of_N_None_iff in E. lia.
Qed.

Lemma lor_shiftl_8 (a b : Z) :
  0 <= a < 256 -> Z.lor a (Z.shiftl b 8) = a + 256 * b.
Proof.
  intros Ha.
  assert (Hland : Z.land a (Z.shiftl b 8) = 0).
  { apply Z.bits_inj'. intros n Hn.
    rewrite Z.land_spec, Z.bits_0.
    destruct (Z.ltb_spec n 8) as [Hlt|Hge].
    - rewrite Z.shiftl_spec_low by lia. apply andb_false_r.
    - replace (Z.testbit a n) with false; [reflexivity|].
      symmetry. destruct (Z.eq_dec a 0) as [->|Hne]; [apply Z.bits_0|].
      apply Z.bits_above_log2; [lia|].
      assert (Z.log2 a < 8) by (apply Z.log2_lt_pow2; lia). lia. }
  pose proof (Z.add_lor_land a (Z.shiftl b 8)) as H.
  rewrite Hland, Z.shiftl_mul_pow2 in H by lia.
  change (2 ^ 8) with 256 in H. rewrite Z.shiftl_mul_pow2 by lia.
  change (2 ^ 8) with 256. lia.
Qed.

Lemma Uint16_LittleEndian (b0 b1 : byte) (rest : list byte) :
  Uint16 LittleEndian (b0 :: b1 :: rest) = byte_to_Z b0 + 256 * byte_to_Z b1.
Proof. simpl. apply lor_shiftl_8, byte_to_Z_range. Qed.

Lemma Uint16_BigEndian (b0 b1 : byte) (rest : list byte) :
  Uint16 BigEndian (b0 :: b1 :: rest) = byte_to_Z b1 + 256 * byte_to_Z b0.
Proof. simpl. apply lor_shiftl_8, byte_to_Z_range. Qed.

Lemma Uint16_range (order : ByteOrder) (b0 b1 : byte) (rest : list byte) :
  0 <= Uint16 order (b0 :: b1 :: rest) < 65536.
Proof.
  pose proof (byte_to_Z_range b0). pose proof (byte_to_Z_range b1).
  destruct order; [rewrite Uint16_LittleEndian | rewrite Uint16_BigEndian]; lia.
Qed.

Lemma Uint16_PutUint16 (order : ByteOrder) (v : uint16) (rest : list byte) :
  0 <= v < 65536 -> Uint16 order (PutUint16 order v ++ rest) = v.
Proof.
  intros Hv.
  assert (Hhi : Z.shiftr v 8 = v / 256) by (rewrite Z.shiftr_div_pow2 by lia; reflexivity).
  assert (Hsmall : (v / 256) mod 256 = v / 256).
  { apply Z.mod_small. split; [apply Z.div_pos; lia|].
    apply Z.div_lt_upper_bound; lia. }
  pose proof (Z.div_mod v 256 ltac:(lia)) as Hdm.
  destruct order; cbn [PutUint16 app];
    [rewrite Uint16_LittleEndian | rewrite Uint16_BigEndian];
    rewrite !byte_to_of_Z, Hhi, Hsmall; lia.
Qed.

Lemma binary_Read_PutUint16 (order : ByteOrder) (v d : uint16) (rest : Reader) :
  0 <= v < 65536 ->
  binary_Read (PutUint16 order v ++ rest) order d = (v, None, rest).
Proof.
  intros Hv. pose proof (Uint16_PutUint16 order v [] Hv) as HU.
  unfold binary_Read.
  destruct order; cbn [PutUint16 app io_ReadFull length Nat.ltb Nat.leb firstn skipn] in *;
    rewrite HU; reflexivity.
Qed.

(** ** readString *)

Lemma eqb_x00_true (ch : byte) : Byte.eqb ch x00 = true <-> ch = x00.
Proof. split; [apply Byte.byte_dec_bl | apply Byte.byte_dec_lb]. Qed.

Lemma eqb_x00_false (ch : byte) : Byte.eqb ch x00 = false <-> ch <> x00.
Proof.
  split; [apply Byte.eqb_false|]. intros Hne.
  destruct (Byte.eqb ch x00) eqn:E; [|reflexivity].
  apply eqb_x00_true in E. contradiction.
Qed.

(** A terminated string is read whole, and the reader is left just after
    its NUL. *)
Lemma readString_loop_terminated (s : gostring) :
  forall (buf : list byte) (old : gostring) (rest : Reader),
    ~ In x00 s ->
    readString_loop (s ++ x00 :: rest) buf old = (buf ++ s, None, rest).
Proof.
  induction s as [|ch s IH]; intros buf old rest Hs; cbn [app readString_loop].
  - cbn. rewrite app_nil_r. reflexivity.
  - assert (Hch : Byte.eqb ch x00 = false).
    { apply eqb_x00_false. intros ->. apply Hs. left. reflexivity. }
    rewrite Hch, IH, <- app_assoc; [reflexivity|].
    intros Hin. apply Hs. right. exact Hin.
Qed.

(** Without a NUL the reader runs dry: [io.EOF], and [*s] is untouched. *)
Lemma readString_loop_unterminated (r : Reader) :
  forall (buf : list byte) (old : gostring),
    ~ In x00 r ->
    readString_loop r buf old = (old, Some io_EOF, []).
Proof.
  induction r as [|ch r IH]; intros buf old Hr; cbn [readString_loop].
  - reflexivity.
  - assert (Hch : Byte.eqb ch x00 = false).
    { apply eqb_x00_false. intros ->. apply Hr. left. reflexivity. }
    rewrite Hch. apply IH. intros Hin. apply Hr. right. exact Hin.
Qed.

(** Every input either has a first NUL or has none. *)
Lemma first_NUL (r : list byte) :
  ~ In x00 r \/ exists s rest, r = s ++ x00 :: rest /\ ~ In x00 s.
Proof.
  induction r as [|ch r IH].
  - left. intros [].
  - destruct (Byte.eqb ch x00) eqn:E.
    + apply eqb_x00_true in E. subst ch. right. exists [], r. split; [reflexivity|intros []].
    + apply eqb_x00_false in E. destruct IH as [Hno | (s & rest & -> & Hs)].
      * left. intros [Heq|Hin]; [congruence | contradiction].
      * right. exists (ch :: s), rest. split; [reflexivity|].
        intros [Heq|Hin]; [congruence | contradiction].
Qed.

(** What a successful [readString] has done. *)
Lemma readString_ok (r : Reader) (old s : gostring) (r' : Reader) :
  readString r old = (s, None, r') ->
  r = s ++ x00 :: r' /\ ~ In x00 s.
Proof.
  unfold readString. intros H.
  destruct (first_NUL r) as [Hno | (t & rest & -> & Ht)].
  - rewrite readString_loop_unterminated in H by exact Hno. discriminate.
  - rewrite readString_loop_terminated in H by exact Ht.
    cbn [app] in H. injection H as <- <-. split; [reflexivity | exact Ht].
Qed.

(** What a failed [readString] has done. *)
Lemma readString_err (r : Reader) (old s : gostring) (e : error) (r' : Reader) :
  readString r old = (s, Some e, r') ->
  e = io_EOF /\ s = old /\ r' = [] /\ ~ In x00 r.
Proof.
  unfold readString. intros H.
  destruct (first_NUL r) as [Hno | (t & rest & -> & Ht)].
  - rewrite readString_loop_unterminated in H by exact Hno.
    injection H as <- <- <-. repeat split; [reflexivity.. | exact Hno].
  - rewrite readString_loop_terminated in H by exact Ht. discriminate.
Qed.

Lemma readString_terminated (s old : gostring) (rest : Reader) :
  ~ In x00 s -> readString (s ++ x00 :: rest) old = (s, None, rest).
Proof. intros Hs. unfold readString. apply readString_loop_terminated, Hs. Qed.

Lemma readString_unterminated (r : Reader) (old : gostring) :
  ~ In x00 r -> readString r old = (old, Some io_EOF, []).
Proof. intros Hr. unfold readString. apply readString_loop_unterminated, Hr. Qed.

(** ** ReadPacket on a datagram of two bytes or more *)

Lemma ReadPacket_cons (b0 b1 : byte) (rest : Reader) :
  ReadPacket (b0 :: b1 :: rest) =
  let '(Opcode, order) := detect (Uint16 LittleEndian [b0; b1]) in
  match newPacket Opcode with
  | None => (Panic, rest)
  | Some ret =>
      let '(ret, err, r2) := readFrom ret rest order in
      (Return (Some ret) (Some order) err, r2)
  end.
Proof. reflexivity. Qed.

Lemma ReadPacket_short (r : Reader) :
  (length r < 2)%nat ->
  exists e r', ReadPacket r = (Return None None (Some e), r').
Proof.
  destruct r as [|b0 [|b1 rest]]; cbn [length]; intros H; try lia.
  - exists io_EOF, []. reflexivity.
  - exists io_ErrUnexpectedEOF, []. reflexivity.
Qed.

Lemma newPacket_opcodeOf (p : Packet) :
  exists ret, newPacket (opcodeOf p) = Some ret /\ opcodeOf ret = opcodeOf p.
Proof. destruct p; eexists; split; reflexivity. Qed.

Lemma newPacket_None (op : uint16) :
  op = 0 \/ 5 < op -> newPacket op = None.
Proof.
  intros H. unfold newPacket, RRQ, WRQ, DATA, ACK, ERROR.
  repeat match goal with
         | |- context [?a =? ?b] => destruct (Z.eqb_spec a b); [lia|]
         end.
  reflexivity.
Qed.

Lemma newPacket_Some (op : uint16) (ret : Packet) :
  newPacket op = Some ret ->
  1 <= op <= 5 /\ opcodeOf ret = op.
Proof.
  unfold newPacket, RRQ, WRQ, DATA, ACK, ERROR.
  repeat match goal with
         | |- context [?a =? ?b] => destruct (Z.eqb_spec a b)
         end; intros H; try discriminate; injection H as <-;
    unfold opcodeOf, RRQ, WRQ, DATA, ACK, ERROR; split; lia.
Qed.

(** The opcode field of a legal opcode, in either order, is recognised. *)
Lemma opcode_field (order : ByteOrder) (op : uint16) :
  1 <= op <= 5 ->
  exists b0 b1,
    PutUint16 order op = [b0; b1] /\
    detect (Uint16 LittleEndian [b0; b1]) = (op, order).
Proof.
  intros H.
  assert (Hop : op = 1 \/ op = 2 \/ op = 3 \/ op = 4 \/ op = 5) by lia.
  destruct order; destruct Hop as [-> | [-> | [-> | [-> | ->]]]];
    do 2 eexists; split; reflexivity.
Qed.

Lemma ReadPacket_opcode (order : ByteOrder) (op : uint16) (ret : Packet) (rest : Reader) :
  newPacket op = Some ret ->
  ReadPacket (PutUint16 order op ++ rest) =
  let '(p, err, r2) := readFrom ret rest order in
  (Return (Some p) (Some order) err, r2).
Proof.
  intros Hnew. destruct (newPacket_Some op ret Hnew) as [Hop _].
  destruct (opcode_field order op Hop) as (b0 & b1 & Hput & Hdet).
  rewrite Hput. cbn [app]. rewrite ReadPacket_cons, Hdet, Hnew. reflexivity.
Qed.

(** ** Byte-order inference *)

(** C2. A two-byte opcode field that holds a legal opcode, 1 to 5: written
    little-endian, it is read as that opcode, which is at most 5, and
    [ReadPacket] selects the variant of that opcode and reports
    [LittleEndian]; written big-endian, it is read as a value above 5,
    whose shift right by 8 bits is the opcode, and [ReadPacket] selects
    the same variant and reports [BigEndian]. *)
Theorem ReadPacket_byte_order_inference (op : uint16) (rest : Reader) :
  1 <= op <= 5 ->
  exists ret,
    newPacket op = Some ret /\ opcodeOf ret = op /\
    binary_Read (PutUint16 LittleEndian op ++ rest) LittleEndian 0 = (op, None, rest) /\
    detect op = (op, LittleEndian) /\
    ReadPacket (PutUint16 LittleEndian op ++ rest) =
      (let '(p, err, r2) := readFrom ret rest LittleEndian in
       (Return (Some p) (Some LittleEndian) err, r2)) /\
    binary_Read (PutUint16 BigEndian op ++ rest) LittleEndian 0 = (256 * op, None, rest) /\
    ERROR < 256 * op /\
    Z.shiftr (256 * op) 8 = op /\
    detect (256 * op) = (op, BigEndian) /\
    ReadPacket (PutUint16 BigEndian op ++ rest) =
      (let '(p, err, r2) := readFrom ret rest BigEndian in
       (Return (Some p) (Some BigEndian) err, r2)).
Proof.
  intros H.
  assert (Hop : op = 1 \/ op = 2 \/ op = 3 \/ op = 4 \/ op = 5) by lia.
  assert (Hnew : exists ret, newPacket op = Some ret).
  { destruct Hop as [-> | [-> | [-> | [-> | ->]]]]; eexists; reflexivity. }
  destruct Hnew as [ret Hnew]. exists ret.
  destruct (newPacket_Some op ret Hnew) as [_ Hret].
  split; [exact Hnew|]. split; [exact Hret|].
  split; [apply binary_Read_PutUint16; lia|].
  split; [destruct Hop as [-> | [-> | [-> | [-> | ->]]]]; reflexivity|].
  split; [apply ReadPacket_opcode, Hnew|].
  split; [destruct Hop as [-> | [-> | [-> | [-> | ->]]]]; reflexivity|].
  split; [unfold ERROR; lia|].
  split; [destruct Hop as [-> | [-> | [-> | [-> | ->]]]]; reflexivity|].
  split; [destruct Hop as [-> | [-> | [-> | [-> | ->]]]]; reflexivity|].
  apply ReadPacket_opcode, Hnew.
Qed.

Lemma ReadPacket_byte_order_inference_witness :
  ReadPacket [x04; x00; x07; x00] =
    (Return (Some (PAck (mkAck 7))) (Some LittleEndian) None, []) /\
  ReadPacket [x00; x04; x00; x07] =
    (Return (Some (PAck (mkAck 7))) (Some BigEndian) None, []).
Proof.
  destruct (ReadPacket_byte_order_inference 4 [x07; x00] ltac:(lia))
    as (ret & Hnew & _ & _ & _ & Hle & _).
  destruct (ReadPacket_byte_order_inference 4 [x00; x07] ltac:(lia))
    as (ret' & Hnew' & _ & _ & _ & _ & _ & _ & _ & _ & Hbe).
  injection Hnew as <-. injection Hnew' as <-.
  split; [exact Hle | exact Hbe].
Defined.

(** ** Unknown opcodes *)

(** C4. On a datagram whose opcode, after the byte-order test, is 0 or
    above 5, [ReadPacket] returns nothing: the [switch] leaves [ret] nil
    and the call [ret.readFrom] panics.  No error value is produced. *)
Theorem ReadPacket_unknown_opcode_panics (b0 b1 : byte) (rest : Reader) :
  fst (detect (Uint16 LittleEndian [b0; b1])) = 0 \/
  5 < fst (detect (Uint16 LittleEndian [b0; b1])) ->
  ReadPacket (b0 :: b1 :: rest) = (Panic, rest).
Proof.
  intros H. rewrite ReadPacket_cons.
  destruct (detect (Uint16 LittleEndian [b0; b1])) as [op order].
  cbn [fst] in H. rewrite (newPacket_None op H). reflexivity.
Qed.

Lemma ReadPacket_unknown_opcode_panics_witness :
  ReadPacket [x00; x00] = (Panic, []) /\
  ReadPacket [x00; x06; x61; x00] = (Panic, [x61; x00]).
Proof.
  split.
  - apply (ReadPacket_unknown_opcode_panics x00 x00 []). left. reflexivity.
  - apply (ReadPacket_unknown_opcode_panics x00 x06 [x61; x00]). right. reflexivity.
Defined.

(** ** The request parser *)

Lemma Rq_readFrom_complete (rq : Rq) (order : ByteOrder) (f m : gostring) (rest : Reader) :
  ~ In x00 f -> ~ In x00 m ->
  Rq_readFrom rq (f ++ x00 :: m ++ x00 :: rest) order = (mkRq f m, None, rest).
Proof.
  intros Hf Hm. unfold Rq_readFrom.
  rewrite (readString_terminated f _ _ Hf), (readString_terminated m _ _ Hm).
  reflexivity.
Qed.

Lemma Rq_readFrom_no_filename_end (rq : Rq) (order : ByteOrder) (body : Reader) :
  ~ In x00 body ->
  Rq_readFrom rq body order = (rq, Some io_EOF, []).
Proof.
  intros Hb. unfold Rq_readFrom. rewrite (readString_unterminated _ _ Hb).
  destruct rq; reflexivity.
Qed.

Lemma Rq_readFrom_no_mode_end (rq : Rq) (order : ByteOrder) (f : gostring) (r1 : Reader) :
  ~ In x00 f -> ~ In x00 r1 ->
  Rq_readFrom rq (f ++ x00 :: r1) order = (mkRq f (Mode rq), Some io_EOF, []).
Proof.
  intros Hf Hr. unfold Rq_readFrom.
  rewrite (readString_terminated f _ _ Hf), (readString_unterminated _ _ Hr).
  reflexivity.
Qed.

(** C8, as the code has it.  A ReadRequest or WriteRequest datagram in
    either byte order: when its body is a NUL-free filename, a NUL, a
    NUL-free mode and a NUL, the parser returns exactly these two strings
    without error and leaves the reader just after the second NUL; when
    the body ends before the NUL of the filename, or before the NUL of the
    mode, decoding fails, and the error is the reader's [io.EOF]. *)
Theorem request_two_strings_or_EOF
  (mk : Rq -> Packet) (order : ByteOrder) (body : Reader) :
  mk = PRrq \/ mk = PWrq ->
  (forall f m rest,
      body = f ++ x00 :: m ++ x00 :: rest -> ~ In x00 f -> ~ In x00 m ->
      ReadPacket (PutUint16 order (opcodeOf (mk (mkRq [] []))) ++ body) =
        (Return (Some (mk (mkRq f m))) (Some order) None, rest)) /\
  (~ In x00 body ->
      ReadPacket (PutUint16 order (opcodeOf (mk (mkRq [] []))) ++ body) =
        (Return (Some (mk (mkRq [] []))) (Some order) (Some io_EOF), [])) /\
  (forall f r1,
      body = f ++ x00 :: r1 -> ~ In x00 f -> ~ In x00 r1 ->
      ReadPacket (PutUint16 order (opcodeOf (mk (mkRq [] []))) ++ body) =
        (Return (Some (mk (mkRq f []))) (Some order) (Some io_EOF), [])).
Proof.
  intros Hmk.
  assert (Hnew : newPacket (opcodeOf (mk (mkRq [] []))) = Some (mk (mkRq [] []))).
  { destruct Hmk as [-> | ->]; reflexivity. }
  rewrite (ReadPacket_opcode order _ _ body Hnew).
  repeat split.
  - intros f m rest -> Hf Hm.
    destruct Hmk as [-> | ->]; cbn [readFrom];
      rewrite (Rq_readFrom_complete _ order f m rest Hf Hm); reflexivity.
  - intros Hb.
    destruct Hmk as [-> | ->]; cbn [readFrom];
      rewrite (Rq_readFrom_no_filename_end _ order body Hb); reflexivity.
  - intros f r1 -> Hf Hr.
    destruct Hmk as [-> | ->]; cbn [readFrom];
      rewrite (Rq_readFrom_no_mode_end _ order f r1 Hf Hr); reflexivity.
Qed.

Lemma not_In_x00_a : ~ In x00 [x61].
Proof. intros [H | []]. discriminate H. Qed.

Lemma not_In_x00_b : ~ In x00 [x62].
Proof. intros [H | []]. discriminate H. Qed.

Lemma request_two_strings_or_EOF_witness :
  ReadPacket [x01; x00; x61; x00; x62; x00; x63] =
    (Return (Some (PRrq (mkRq [x61] [x62]))) (Some LittleEndian) None, [x63]) /\
  ReadPacket [x01; x00; x61] =
    (Return (Some (PRrq (mkRq [] []))) (Some LittleEndian) (Some io_EOF), []) /\
  ReadPacket [x00; x02; x61; x00; x62] =
    (Return (Some (PWrq (mkRq [x61] []))) (Some BigEndian) (Some io_EOF), []).
Proof.
  split; [|split].
  - destruct (request_two_strings_or_EOF PRrq LittleEndian
                [x61; x00; x62; x00; x63] (or_introl eq_refl)) as (H & _ & _).
    exact (H [x61] [x62] [x63] eq_refl not_In_x00_a not_In_x00_b).
  - destruct (request_two_strings_or_EOF PRrq LittleEndian
                [x61] (or_introl eq_refl)) as (_ & H & _).
    exact (H not_In_x00_a).
  - destruct (request_two_strings_or_EOF PWrq BigEndian
                [x61; x00; x62] (or_intror eq_refl)) as (_ & _ & H).
    exact (H [x61] [x62] eq_refl not_In_x00_a not_In_x00_b).
Defined.

(** C8, as the claim has it, fails: on a ReadRequest whose filename has no
    NUL the error is not [MalformedPacket]. *)
Lemma request_unterminated_not_MalformedPacket :
  ~ exists ret order r',
      ReadPacket [x01; x00; x61] = (Return ret order (Some MalformedPacket), r').
Proof. intros (ret & order & r' & H). discriminate H. Qed.

(** ** Decoded strings *)

(** C9. After a successful decode of a ReadRequest, a WriteRequest or an
    Error packet, every string field is the run of source bytes up to the
    first NUL after the previous field and holds no NUL; the NUL is
    consumed, the next field starts at the byte after it, and what is left
    of the source starts after the last NUL. *)
Theorem decoded_strings_stop_at_first_NUL
  (src : Reader) (p : Packet) (order : ByteOrder) (rest : Reader) :
  ReadPacket src = (Return (Some p) (Some order) None, rest) ->
  match p with
  | PRrq rq | PWrq rq =>
      exists hdr,
        length hdr = 2%nat /\
        src = hdr ++ Filename rq ++ x00 :: Mode rq ++ x00 :: rest /\
        ~ In x00 (Filename rq) /\ ~ In x00 (Mode rq)
  | PError e =>
      exists hdr,
        length hdr = 4%nat /\
        src = hdr ++ ErrorMsg e ++ x00 :: rest /\
        ~ In x00 (ErrorMsg e)
  | PData _ | PAck _ => True
  end.
Proof.
  destruct src as [|b0 [|b1 body]]; try discriminate.
  rewrite ReadPacket_cons.
  destruct (detect (Uint16 LittleEndian [b0; b1])) as [op o].
  destruct (newPacket op) as [ret|] eqn:Hnew; [|discriminate].
  assert (Hrq : forall rq0 rq r',
             Rq_readFrom rq0 body o = (rq, None, r') ->
             body = Filename rq ++ x00 :: Mode rq ++ x00 :: r' /\
             ~ In x00 (Filename rq) /\ ~ In x00 (Mode rq)).
  { intros rq0 rq r'. unfold Rq_readFrom.
    destruct (readString body (Filename rq0)) as [[f [e|]] r1] eqn:E1; [discriminate|].
    destruct (readString r1 (Mode rq0)) as [[m err] r2] eqn:E2.
    intros H. injection H as H1 H2 H3. subst rq err r'.
    apply readString_ok in E1, E2. destruct E1 as [-> Hf], E2 as [-> Hm].
    cbn [Filename Mode]. repeat split; assumption. }
  destruct ret as [rq0 | rq0 | d0 | a0 | e0]; cbn [readFrom].
  - destruct (Rq_readFrom rq0 body o) as [[rq err] r'] eqn:E.
    intros H. injection H as H1 H2 H3. subst p err rest.
    destruct (Hrq _ _ _ E) as (-> & Hf & Hm).
    exists [b0; b1]. repeat split; assumption.
  - destruct (Rq_readFrom rq0 body o) as [[rq err] r'] eqn:E.
    intros H. injection H as H1 H2 H3. subst p err rest.
    destruct (Hrq _ _ _ E) as (-> & Hf & Hm).
    exists [b0; b1]. repeat split; assumption.
  - destruct (Data_readFrom d0 body o) as [[d err] r']. intros H. injection H as <-. exact I.
  - destruct (Ack_readFrom a0 body o) as [[a err] r']. intros H. injection H as <-. exact I.
  - unfold Error_readFrom, binary_Read.
    destruct body as [|c0 [|c1 body']]; try discriminate.
    cbn [io_ReadFull length Nat.ltb Nat.leb firstn skipn].
    destruct (readString body' (ErrorMsg e0)) as [[m err] r2] eqn:E.
    intros H. injection H as H1 H2 H3. subst p err rest.
    apply readString_ok in E. destruct E as [-> Hm].
    exists [b0; b1; c0; c1]. cbn [ErrorMsg]. repeat split; assumption.
Qed.

Lemma decoded_strings_stop_at_first_NUL_witness :
  exists hdr,
    length hdr = 4%nat /\
    [x05; x00; x01; x00; x61; x00; x62] = hdr ++ [x61] ++ x00 :: [x62] /\
    ~ In x00 [x61].
Proof.
  exact (decoded_strings_stop_at_first_NUL
           [x05; x00; x01; x00; x61; x00; x62]
           (PError (mkError 1 [x61])) LittleEndian [x62] eq_refl).
Defined.

(** ** The Data parser *)

Lemma skipn_repeat (x : byte) (n m : nat) :
  skipn n (repeat x m) = repeat x (m - n).
Proof.
  revert m. induction n as [|n IH]; intros m.
  - rewrite Nat.sub_0_r. reflexivity.
  - destruct m as [|m]; [reflexivity|]. cbn [repeat skipn Nat.sub]. apply IH.
Qed.

(** The payload buffer after [r.Read(d.Data)] has copied [got] into it. *)
Lemma copy_into_block (got : list byte) :
  (length got <= 512)%nat ->
  copy (repeat x00 512) got = got ++ repeat x00 (512 - length got).
Proof.
  intros H. unfold copy. rewrite repeat_length, skipn_repeat.
  rewrite firstn_all2 by exact H. reflexivity.
Qed.

Lemma Read_block (payload : list byte) :
  payload <> [] -> (length payload <= 512)%nat ->
  Read payload 512 = (payload, None, []).
Proof.
  intros Hne Hlen. unfold Read. destruct payload as [|b payload']; [contradiction|].
  rewrite firstn_all2, skipn_all2 by exact Hlen. reflexivity.
Qed.

Lemma Read_length (r : Reader) (n : nat) (got : list byte) (err : option error) (r' : Reader) :
  Read r n = (got, err, r') -> (length got <= n)%nat.
Proof.
  unfold Read. destruct r as [|b r0]; intros H; injection H as H1 H2 H3; subst got.
  - cbn. lia.
  - apply firstn_le_length.
Qed.

(** A block number and a payload of 1 to 512 bytes: the parser succeeds
    and [d.Data] is the 512-byte buffer, the payload at its front. *)
Lemma Data_readFrom_payload
  (d : Data) (order : ByteOrder) (bn : uint16) (payload : list byte) :
  is_uint16 bn -> payload <> [] -> (length payload <= 512)%nat ->
  Data_readFrom d (PutUint16 order bn ++ payload) order =
    (mkData bn (payload ++ repeat x00 (512 - length payload)), None, []).
Proof.
  intros Hbn Hne Hlen. unfold Data_readFrom.
  rewrite binary_Read_PutUint16 by exact Hbn.
  rewrite Read_block, copy_into_block by assumption. reflexivity.
Qed.

(** A block number and no payload: the parser returns [io.EOF]. *)
Lemma Data_readFrom_empty (d : Data) (order : ByteOrder) (bn : uint16) :
  is_uint16 bn ->
  Data_readFrom d (PutUint16 order bn ++ []) order =
    (mkData bn (repeat x00 512), Some io_EOF, []).
Proof.
  intros Hbn. unfold Data_readFrom.
  rewrite binary_Read_PutUint16 by exact Hbn. reflexivity.
Qed.

(** Whatever follows the block number, a Data packet that [ReadPacket]
    returns has a payload slice of 512 bytes. *)
Lemma Data_readFrom_length
  (d d' : Data) (r r' : Reader) (order : ByteOrder) :
  Data_readFrom d r order = (d', None, r') ->
  length (Data_Data d') = 512%nat.
Proof.
  unfold Data_readFrom.
  destruct (binary_Read r order (Data_BlockNum d)) as [[bn [e|]] r1]; [discriminate|].
  destruct (Read r1 512) as [[got err] r2] eqn:E.
  intros H. injection H as H1 H2 H3. subst d' err r'. cbn [Data_Data].
  assert (Hgot : (length got <= 512)%nat) by exact (Read_length _ _ _ _ _ E).
  rewrite copy_into_block, length_app, repeat_length by exact Hgot. lia.
Qed.

(** C3, on the code.  A little-endian Data datagram, block 1, with the
    single payload byte 0x61: decoding succeeds, and the decoded payload
    has 512 bytes, not 1.  The same datagram with no payload byte:
    decoding returns the error [io.EOF]. *)
Theorem Data_short_payload_not_visible :
  (exists d,
      ReadPacket [x03; x00; x01; x00; x61] =
        (Return (Some (PData d)) (Some LittleEndian) None, []) /\
      Data_BlockNum d = 1 /\
      Data_Data d = x61 :: repeat x00 511 /\
      length (Data_Data d) = 512%nat) /\
  ReadPacket [x03; x00; x01; x00] =
    (Return (Some (PData (mkData 1 (repeat x00 512)))) (Some LittleEndian)
       (Some io_EOF), []).
Proof.
  split.
  - exists (mkData 1 (x61 :: repeat x00 511)).
    split; [vm_compute; reflexivity|].
    split; [reflexivity|]. split; [reflexivity|].
    cbn [Data_Data length]. rewrite repeat_length. reflexivity.
  - vm_compute. reflexivity.
Qed.

(** ** Encoding, then decoding *)

Lemma Encode_wire (p : Packet) (order : ByteOrder) :
  snd (fst (Encode p order [])) = None /\
  Encode_bytes p order = PutUint16 order (opcodeOf p) ++ wire_fields p order.
Proof.
  unfold Encode_bytes, Encode, Encode_fields, writeString, binary_Write, Write.
  destruct p as [rq | rq | d | a | e]; cbn [fst snd wire_fields app];
    (split; [reflexivity|]);
    repeat rewrite <- app_assoc; reflexivity.
Qed.

(** C1, as the code has it.  A packet whose strings hold no NUL and, if it
    is a Data packet, whose payload is exactly 512 bytes, is encoded
    without error in either byte order, and decoding the bytes yields the
    packet, the byte order, no error, and an exhausted reader. *)
Theorem ReadPacket_Encode_roundtrip (p : Packet) (order : ByteOrder) :
  uint16_fields p -> NUL_free_strings p -> full_block p ->
  snd (fst (Encode p order [])) = None /\
  ReadPacket (Encode_bytes p order) = (Return (Some p) (Some order) None, []).
Proof.
  intros Hty Hnul Hfull.
  destruct (Encode_wire p order) as [Herr Hbytes].
  split; [exact Herr|]. rewrite Hbytes.
  destruct (newPacket_opcodeOf p) as (ret & Hnew & _).
  rewrite (ReadPacket_opcode order _ _ _ Hnew).
  destruct p as [[f m] | [f m] | [bn payload] | [bn] | [c msg]];
    cbn in Hnew; injection Hnew as <-;
    cbn [uint16_fields NUL_free_strings full_block wire_fields readFrom
         Filename Mode Data_BlockNum Data_Data Ack_BlockNum ErrorCode ErrorMsg] in *.
  - destruct Hnul as [Hf Hm].
    rewrite (Rq_readFrom_complete _ order f m [] Hf Hm). reflexivity.
  - destruct Hnul as [Hf Hm].
    rewrite (Rq_readFrom_complete _ order f m [] Hf Hm). reflexivity.
  - rewrite Data_readFrom_payload; [| exact Hty | | lia].
    + rewrite Hfull, Nat.sub_diag. cbn [repeat]. rewrite app_nil_r. reflexivity.
    + intros ->. discriminate Hfull.
  - unfold Ack_readFrom.
    rewrite <- (app_nil_r (PutUint16 order bn)).
    rewrite binary_Read_PutUint16 by exact Hty. reflexivity.
  - unfold Error_readFrom.
    rewrite binary_Read_PutUint16 by exact Hty.
    change (msg ++ [x00]) with (msg ++ x00 :: []).
    rewrite (readString_terminated msg _ _ Hnul). reflexivity.
Qed.

Lemma ReadPacket_Encode_roundtrip_witness :
  ReadPacket
    (Encode_bytes (PRrq (mkRq [x61; x2e; x74; x78; x74] [x6f; x63; x74; x65; x74]))
       LittleEndian)
  = (Return (Some (PRrq (mkRq [x61; x2e; x74; x78; x74] [x6f; x63; x74; x65; x74])))
       (Some LittleEndian) None, []) /\
  ReadPacket (Encode_bytes (PError (mkError 4 [x6e; x6f])) BigEndian)
  = (Return (Some (PError (mkError 4 [x6e; x6f]))) (Some BigEndian) None, []).
Proof.
  split.
  - apply (ReadPacket_Encode_roundtrip
             (PRrq (mkRq [x61; x2e; x74; x78; x74] [x6f; x63; x74; x65; x74]))
             LittleEndian).
    + exact I.
    + NUL_free.
    + exact I.
  - apply (ReadPacket_Encode_roundtrip (PError (mkError 4 [x6e; x6f])) BigEndian).
    + cbn. unfold is_uint16. lia.
    + NUL_free.
    + exact I.
Defined.

(** C1, as the claim has it, fails.  A ReadRequest whose filename holds a
    NUL comes back with the filename cut at the NUL and the rest of it as
    the mode.  A Data packet with a one-byte payload comes back with a
    payload of 512 bytes. *)
Lemma roundtrip_fails_on_NUL_and_on_short_payload :
  ReadPacket (Encode_bytes (PRrq (mkRq [x61; x00; x62] [x6f])) LittleEndian)
    = (Return (Some (PRrq (mkRq [x61] [x62]))) (Some LittleEndian) None, [x6f; x00]) /\
  ReadPacket (Encode_bytes (PRrq (mkRq [x61; x00; x62] [x6f])) LittleEndian)
    <> (Return (Some (PRrq (mkRq [x61; x00; x62] [x6f]))) (Some LittleEndian) None, []) /\
  ReadPacket (Encode_bytes (PData (mkData 1 [x61])) BigEndian)
    = (Return (Some (PData (mkData 1 (x61 :: repeat x00 511)))) (Some BigEndian) None, []) /\
  ReadPacket (Encode_bytes (PData (mkData 1 [x61])) BigEndian)
    <> (Return (Some (PData (mkData 1 [x61]))) (Some BigEndian) None, []).
Proof.
  split; [reflexivity|]. split; [intros H; discriminate H|].
  split; [vm_compute; reflexivity|].
  intros H. apply (f_equal fst) in H.
  assert (Hlen : forall d d' o o' e e',
             Return (Some (PData d)) o e = Return (Some (PData d')) o' e' ->
             length (Data_Data d) = length (Data_Data d')).
  { intros d d' o o' e e' E. injection E as E _ _. rewrite E. reflexivity. }
  assert (Hd : fst (ReadPacket (Encode_bytes (PData (mkData 1 [x61])) BigEndian))
               = Return (Some (PData (mkData 1 (x61 :: repeat x00 511))))
                   (Some BigEndian) None) by (vm_compute; reflexivity).
  rewrite Hd in H. apply Hlen in H. cbn [Data_Data length] in H.
  rewrite repeat_length in H. discriminate H.
Qed.

(** ** PutReq.Read *)

(** With bytes in the buffer and [soFar] below [goal], the loop body does
    nothing, and the loop goes on for as long as it is run. *)
Lemma Read_loop_spins (goal soFar : nat) (r : PutReq) :
  data r <> [] -> (soFar < goal)%nat ->
  forall fuel, Read_loop fuel goal soFar r = Looping soFar r.
Proof.
  intros Hdata Hlt.
  assert (Htest : (soFar <? goal)%nat = true) by (apply Nat.ltb_lt; exact Hlt).
  assert (Hbody : Read_body r = Next r).
  { unfold Read_body. destruct (data r); [contradiction | reflexivity]. }
  induction fuel as [|fuel IH]; cbn [Read_loop]; rewrite Htest.
  - reflexivity.
  - rewrite Hbody. exact IH.
Qed.

(** With an empty buffer and nothing inbound, the receive blocks. *)
Lemma Read_loop_starves (goal soFar : nat) (r : PutReq) (fuel : nat) :
  data r = [] -> in_ r = [] -> (soFar < goal)%nat ->
  Read_loop (S fuel) goal soFar r = Blocked soFar r.
Proof.
  intros Hdata Hin Hlt. cbn [Read_loop].
  replace (soFar <? goal)%nat with true by (symmetry; apply Nat.ltb_lt; exact Hlt).
  unfold Read_body. rewrite Hdata, Hin. reflexivity.
Qed.

(** [Read] never sends: the outbound channel is as it was. *)
Lemma Read_body_out (r r' : PutReq) :
  Read_body r = Next r' -> out r' = out r.
Proof.
  unfold Read_body. destruct (length (data r) =? 0)%nat.
  - destruct (in_ r) as [|[[rq | rq | d | a | e]|] rest]; intros H;
      try discriminate H; injection H as <-; reflexivity.
  - intros H. injection H as <-. reflexivity.
Qed.

Lemma Read_loop_out (goal soFar : nat) :
  forall fuel r, out (final (Read_loop fuel goal soFar r)) = out r.
Proof.
  induction fuel as [|fuel IH]; intros r; cbn [Read_loop];
    destruct (soFar <? goal)%nat; try reflexivity.
  destruct (Read_body r) as [r' | v r' | r'] eqn:E.
  - rewrite IH. apply (Read_body_out _ _ E).
  - unfold Read_body in E. destruct (length (data r) =? 0)%nat; [|discriminate E].
    destruct (in_ r) as [|[[rq | rq | d | a | e]|] rest];
      try discriminate E; injection E as _ <-; reflexivity.
  - unfold Read_body in E. destruct (length (data r) =? 0)%nat; [|discriminate E].
    destruct (in_ r) as [|[[rq | rq | d | a | e]|] rest];
      try discriminate E; injection E as <-; reflexivity.
Qed.

(** C5. A write-transfer with an empty buffer whose inbound traffic is one
    Data packet, the payload shorter than the slice passed to [Read]:
    however long the call is run it has not returned.  It is in the loop,
    or blocked on the receive, and [soFar] is still 0. *)
Theorem PutReq_Read_never_returns
  (d : Data) (p : list byte) (out0 : chan) (fuel : nat) :
  (length (Data_Data d) < length p)%nat ->
  (exists r, PutReq_Read fuel (mkPutReq [Some (PData d)] out0 []) p = Looping 0 r) \/
  (exists r, PutReq_Read fuel (mkPutReq [Some (PData d)] out0 []) p = Blocked 0 r).
Proof.
  intros Hshort. unfold PutReq_Read.
  assert (Hlt : (0 < length p)%nat) by lia.
  assert (Htest : (0 <? length p)%nat = true) by (apply Nat.ltb_lt; exact Hlt).
  destruct fuel as [|fuel]; cbn [Read_loop]; rewrite Htest.
  - left. eexists. reflexivity.
  - cbn [Read_body data length Nat.eqb in_ out].
    destruct (Data_Data d) as [|b payload] eqn:Hd.
    + destruct fuel as [|fuel].
      * left. eexists. cbn [Read_loop]. rewrite Htest. reflexivity.
      * right. eexists. apply Read_loop_starves; [reflexivity | reflexivity | exact Hlt].
    + left. eexists. apply Read_loop_spins; [discriminate | exact Hlt].
Qed.

Lemma PutReq_Read_never_returns_witness :
  (exists r,
      PutReq_Read 1000 (mkPutReq [Some (PData (mkData 1 [x61]))] [] []) [x00; x00]
      = Looping 0 r) \/
  (exists r,
      PutReq_Read 1000 (mkPutReq [Some (PData (mkData 1 [x61]))] [] []) [x00; x00]
      = Blocked 0 r).
Proof.
  apply (PutReq_Read_never_returns (mkData 1 [x61]) [x00; x00] [] 1000).
  cbn. lia.
Defined.

(** C6, as the code has it.  A write-transfer with an empty buffer, asked
    for at least one byte, whose next inbound packet is not a Data packet:
    [Read] returns nothing to its caller, and so no error, however long
    it is run; once the loop body has run it has received that packet and
    panicked with the value 4, which is the numeric code [ErrIllegalOp],
    and it has sent nothing. *)
Theorem PutReq_Read_non_Data_panics
  (r : PutReq) (pkt : iface) (rest : chan) (p : list byte) :
  data r = [] -> in_ r = pkt :: rest -> (forall d, pkt <> Some (PData d)) ->
  p <> [] ->
  (forall fuel, PutReq_Read (S fuel) r p = Panicked 4 (mkPutReq rest (out r) [])) /\
  (forall fuel n err r', PutReq_Read fuel r p <> Returned n err r') /\
  ErrIllegalOp = 4.
Proof.
  intros Hdata Hin Hpkt Hp.
  assert (Hpanic : forall fuel,
             PutReq_Read (S fuel) r p = Panicked 4 (mkPutReq rest (out r) [])).
  { intros fuel. unfold PutReq_Read. cbn [Read_loop].
    destruct p as [|b p']; [contradiction|]. cbn [length Nat.ltb Nat.leb].
    unfold Read_body. rewrite Hdata, Hin. cbn [length Nat.eqb].
    destruct pkt as [[rq | rq | d | a | e]|]; try reflexivity.
    exfalso. apply (Hpkt d). reflexivity. }
  split; [exact Hpanic|]. split; [|reflexivity].
  intros [|fuel] n err r'.
  - unfold PutReq_Read. destruct p as [|b p']; [contradiction|]. discriminate.
  - rewrite Hpanic. discriminate.
Qed.

Lemma PutReq_Read_non_Data_panics_witness :
  (forall fuel,
      PutReq_Read (S fuel) (mkPutReq [Some (PAck (mkAck 0))] [] []) [x00]
      = Panicked 4 (mkPutReq [] [] [])) /\
  (forall fuel n err r',
      PutReq_Read fuel (mkPutReq [Some (PAck (mkAck 0))] [] []) [x00]
      <> Returned n err r') /\
  ErrIllegalOp = 4.
Proof.
  apply (PutReq_Read_non_Data_panics
           (mkPutReq [Some (PAck (mkAck 0))] [] []) (Some (PAck (mkAck 0))) [] [x00]).
  - reflexivity.
  - reflexivity.
  - intros d H. discriminate H.
  - discriminate.
Defined.

(** C6, as the claim has it, fails: with an Ack inbound, [Read] returns no
    [IllegalOperation] error, however long it is run. *)
Lemma PutReq_Read_returns_no_IllegalOperation :
  ~ exists fuel n r',
      PutReq_Read fuel (mkPutReq [Some (PAck (mkAck 0))] [] []) [x00]
      = Returned n (Some IllegalOperation) r'.
Proof. intros (fuel & n & r' & H). destruct fuel; discriminate H. Qed.

(** C7, as the code has it.  A write-transfer with an empty buffer whose
    [Read] is asked for at least one byte and whose next inbound packet is
    a Data packet, whatever its block number: the first run of the loop
    body receives the packet and makes its payload the buffer, which is
    the empty buffer with the payload appended; [Read] is then still in
    its loop, with [soFar = 0], and when the payload is not empty it stays
    there with that buffer however long it is run, whatever the length of
    the payload; and [Read] never changes the outbound channel, so no Ack
    is sent. *)
Theorem PutReq_Read_buffers_payload_sends_nothing
  (r : PutReq) (d : Data) (rest : chan) (p : list byte) :
  data r = [] -> in_ r = Some (PData d) :: rest -> p <> [] ->
  Read_body r = Next (mkPutReq rest (out r) (data r ++ Data_Data d)) /\
  PutReq_Read 1 r p = Looping 0 (mkPutReq rest (out r) (data r ++ Data_Data d)) /\
  (Data_Data d <> [] ->
   forall fuel,
     PutReq_Read (S fuel) r p
     = Looping 0 (mkPutReq rest (out r) (data r ++ Data_Data d))) /\
  (forall fuel, out (final (PutReq_Read fuel r p)) = out r).
Proof.
  intros Hdata Hin Hp.
  assert (Hgoal : (0 < length p)%nat) by (destruct p; [contradiction | cbn; lia]).
  assert (Htest : (0 <? length p)%nat = true) by (apply Nat.ltb_lt; exact Hgoal).
  assert (Hbody : Read_body r = Next (mkPutReq rest (out r) (data r ++ Data_Data d))).
  { unfold Read_body. rewrite Hdata, Hin. reflexivity. }
  split; [exact Hbody|]. split; [|split].
  - unfold PutReq_Read. cbn [Read_loop]. rewrite Htest, Hbody. reflexivity.
  - intros Hd fuel. unfold PutReq_Read. cbn [Read_loop]. rewrite Htest, Hbody.
    apply Read_loop_spins; [|exact Hgoal].
    rewrite Hdata. cbn [data app]. exact Hd.
  - intros fuel. apply Read_loop_out.
Qed.

Lemma PutReq_Read_buffers_payload_sends_nothing_witness :
  Read_body (mkPutReq [Some (PData (mkData 1 [x61]))] [] [])
  = Next (mkPutReq [] [] [x61]) /\
  PutReq_Read 1 (mkPutReq [Some (PData (mkData 1 [x61]))] [] []) [x00]
  = Looping 0 (mkPutReq [] [] [x61]) /\
  (forall fuel,
      PutReq_Read (S fuel) (mkPutReq [Some (PData (mkData 1 [x61]))] [] []) [x00]
      = Looping 0 (mkPutReq [] [] [x61])) /\
  (forall fuel,
      out (final (PutReq_Read fuel
                    (mkPutReq [Some (PData (mkData 1 [x61]))] [] []) [x00]))
      = []).
Proof.
  destruct (PutReq_Read_buffers_payload_sends_nothing
              (mkPutReq [Some (PData (mkData 1 [x61]))] [] []) (mkData 1 [x61]) [] [x00]
              eq_refl eq_refl) as (H1 & H2 & H3 & H4).
  - discriminate.
  - split; [exact H1|]. split; [exact H2|]. split; [|exact H4].
    apply H3. discriminate.
Defined.

(** C7, as the claim has it, fails: after Data block 1 has arrived, no Ack
    for block 1 is on the outbound channel, however long [Read] is run. *)
Lemma PutReq_Read_sends_no_Ack :
  ~ exists fuel,
      In (Some (PAck (mkAck 1)))
         (out (final (PutReq_Read fuel
                        (mkPutReq [Some (PData (mkData 1 [x61]))] [] []) [x00]))).
Proof.
  intros [fuel H]. unfold PutReq_Read in H. rewrite Read_loop_out in H. exact H.
Qed.

(** ** handleClient *)

(** C10. When the first inbound packet is anything but a WriteRequest,
    [handleClient] receives it and returns, and the outbound channel is as
    it was; a WriteRequest, and nothing else, goes to [handleWrite]. *)
Theorem handleClient_drops_all_but_Wrq
  (handleWrite : Rq -> chan -> chan -> ClientOutcome)
  (pkt : iface) (rest out0 : chan) :
  (forall rq, pkt <> Some (PWrq rq)) ->
  handleClient handleWrite (pkt :: rest) out0 = ClientReturned rest out0 /\
  forall rq,
    handleClient handleWrite (Some (PWrq rq) :: rest) out0 = handleWrite rq rest out0.
Proof.
  intros Hpkt. split; [|reflexivity].
  destruct pkt as [[rq | rq | d | a | e]|]; try reflexivity.
  exfalso. apply (Hpkt rq). reflexivity.
Qed.

Lemma handleClient_drops_all_but_Wrq_witness :
  handleClient (fun _ _ out' => ClientReturned [] (out' ++ [Some (PAck (mkAck 0))]))
    [Some (PRrq (mkRq [x61] [x6f]))] []
  = ClientReturned [] [].
Proof.
  apply (handleClient_drops_all_but_Wrq
           (fun _ _ out' => ClientReturned [] (out' ++ [Some (PAck (mkAck 0))]))
           (Some (PRrq (mkRq [x61] [x6f]))) [] []).
  intros rq H. discriminate H.
Defined.

(** * Further properties of the codec *)

(** ** The opcode field, byte by byte *)

Lemma byte_to_Z_x00 (b : byte) : byte_to_Z b = 0 <-> b = x00.
Proof.
  split.
  - intros H. rewrite <- (byte_of_to_Z b), H. reflexivity.
  - intros ->. reflexivity.
Qed.

(** X2. Which variant and order the two opcode bytes select: with a zero
    second byte and a first byte of at most 5, little-endian and the first
    byte; with a zero second byte and a larger first byte, big-endian and
    opcode 0; with a non-zero second byte, big-endian and the second byte,
    whatever the first byte is. *)
Theorem detect_opcode_bytes (b0 b1 : byte) :
  detect (Uint16 LittleEndian [b0; b1]) =
  if byte_to_Z b1 =? 0
  then if byte_to_Z b0 <=? 5
       then (byte_to_Z b0, LittleEndian)
       else (0, BigEndian)
  else (byte_to_Z b1, BigEndian).
Proof.
  rewrite Uint16_LittleEndian. unfold detect, ERROR.
  pose proof (byte_to_Z_range b0) as H0. pose proof (byte_to_Z_range b1) as H1.
  assert (Hshift : Z.shiftr (byte_to_Z b0 + 256 * byte_to_Z b1) 8 = byte_to_Z b1).
  { rewrite Z.shiftr_div_pow2 by lia. change (2 ^ 8) with 256.
    symmetry. apply (Z.div_unique _ 256 _ (byte_to_Z b0)); lia. }
  destruct (Z.eqb_spec (byte_to_Z b1) 0) as [E | E].
  - rewrite E in *. rewrite Z.add_0_r in *.
    destruct (Z.leb_spec (byte_to_Z b0) 5), (Z.ltb_spec 5 (byte_to_Z b0)); try lia.
    + reflexivity.
    + rewrite Hshift. reflexivity.
  - destruct (Z.ltb_spec 5 (byte_to_Z b0 + 256 * byte_to_Z b1)); [|lia].
    rewrite Hshift. reflexivity.
Qed.

(** X3. When the second opcode byte is not zero the first one is never
    looked at: the datagram decodes as if the first byte were zero. *)
Theorem ReadPacket_ignores_first_byte (b0 b1 : byte) (rest : Reader) :
  b1 <> x00 ->
  ReadPacket (b0 :: b1 :: rest) = ReadPacket (x00 :: b1 :: rest).
Proof.
  intros Hb1. rewrite !ReadPacket_cons, !detect_opcode_bytes.
  destruct (Z.eqb_spec (byte_to_Z b1) 0) as [E | E]; [|reflexivity].
  apply byte_to_Z_x00 in E. contradiction.
Qed.

Lemma ReadPacket_ignores_first_byte_witness :
  ReadPacket [xff; x04; x00; x07] =
  (Return (Some (PAck (mkAck 7))) (Some BigEndian) None, []).
Proof.
  rewrite (ReadPacket_ignores_first_byte xff x04 [x00; x07]).
  - reflexivity.
  - discriminate.
Defined.

(** ** Datagrams too short for an opcode *)

(** X1. On a datagram of fewer than two bytes [ReadPacket] returns a nil
    packet, a nil byte order and the error of the short read: [io.EOF] on
    no byte, [io.ErrUnexpectedEOF] on one; the reader is exhausted. *)
Theorem ReadPacket_short_datagram (r : Reader) :
  (length r < 2)%nat ->
  ReadPacket r = (Return None None (Some (short_read_error r)), []).
Proof.
  destruct r as [|b0 [|b1 rest]]; cbn [length]; intros H; try lia; reflexivity.
Qed.

Lemma ReadPacket_short_datagram_witness :
  ReadPacket [x03] = (Return None None (Some io_ErrUnexpectedEOF), []).
Proof. apply (ReadPacket_short_datagram [x03]). cbn. lia. Defined.

(** The method call never changes the dynamic type of its receiver. *)
Lemma readFrom_opcodeOf
  (ret : Packet) (r : Reader) (o : ByteOrder)
  (p : Packet) (err : option error) (r' : Reader) :
  readFrom ret r o = (p, err, r') -> opcodeOf p = opcodeOf ret.
Proof.
  destruct ret as [rq | rq | d | a | e]; cbn [readFrom].
  - destruct (Rq_readFrom rq r o) as [[x y] z]. intros H. injection H as <- _ _. reflexivity.
  - destruct (Rq_readFrom rq r o) as [[x y] z]. intros H. injection H as <- _ _. reflexivity.
  - destruct (Data_readFrom d r o) as [[x y] z]. intros H. injection H as <- _ _. reflexivity.
  - destruct (Ack_readFrom a r o) as [[x y] z]. intros H. injection H as <- _ _. reflexivity.
  - destruct (Error_readFrom e r o) as [[x y] z]. intros H. injection H as <- _ _. reflexivity.
Qed.

(** X4. On a datagram of two bytes or more [ReadPacket] does one of two
    things.  It panics, leaving the reader after the opcode, and then the
    opcode after the byte-order test is 0 or above 5.  Or it returns a
    non-nil packet and a non-nil order, with or without an error, and then
    the opcode is one of 1 to 5, the packet is of the variant of that
    opcode and the order is the detected one. *)
Theorem ReadPacket_two_bytes_outcome (b0 b1 : byte) (rest : Reader) :
  (ReadPacket (b0 :: b1 :: rest) = (Panic, rest) /\
   (fst (detect (Uint16 LittleEndian [b0; b1])) = 0 \/
    5 < fst (detect (Uint16 LittleEndian [b0; b1])))) \/
  (exists p err r',
      ReadPacket (b0 :: b1 :: rest) =
        (Return (Some p) (Some (snd (detect (Uint16 LittleEndian [b0; b1])))) err, r') /\
      opcodeOf p = fst (detect (Uint16 LittleEndian [b0; b1])) /\
      1 <= fst (detect (Uint16 LittleEndian [b0; b1])) <= 5).
Proof.
  rewrite ReadPacket_cons.
  assert (Hnonneg : 0 <= fst (detect (Uint16 LittleEndian [b0; b1]))).
  { rewrite detect_opcode_bytes.
    pose proof (byte_to_Z_range b0). pose proof (byte_to_Z_range b1).
    destruct (byte_to_Z b1 =? 0); [destruct (byte_to_Z b0 <=? 5)|]; cbn [fst]; lia. }
  destruct (detect (Uint16 LittleEndian [b0; b1])) as [op o]. cbn [fst snd] in *.
  destruct (newPacket op) as [ret|] eqn:Hnew.
  - right. destruct (newPacket_Some op ret Hnew) as [Hop Hret].
    destruct (readFrom ret rest o) as [[p err] r'] eqn:E.
    exists p, err, r'. split; [reflexivity|]. split; [|exact Hop].
    rewrite <- Hret. apply (readFrom_opcodeOf _ _ _ _ _ _ E).
  - left. split; [reflexivity|].
    destruct (Z.eq_dec op 0) as [E0 | E0]; [left; exact E0|].
    right. destruct (Z.le_gt_cases op 5) as [Hle | Hgt]; [|exact Hgt].
    exfalso.
    assert (Hop : op = 1 \/ op = 2 \/ op = 3 \/ op = 4 \/ op = 5) by lia.
    destruct Hop as [-> | [-> | [-> | [-> | ->]]]]; discriminate Hnew.
Qed.

(** ** Errors *)

Lemma short_read_error_cases (r : Reader) :
  short_read_error r = io_EOF \/ short_read_error r = io_ErrUnexpectedEOF.
Proof. destruct r; [left | right]; reflexivity. Qed.

Lemma binary_Read_short (r : Reader) (o : ByteOrder) (d : uint16) :
  (length r < 2)%nat ->
  binary_Read r o d = (d, Some (short_read_error r), []).
Proof.
  destruct r as [|c0 [|c1 r0]]; cbn [length]; intros H; try lia; reflexivity.
Qed.

Lemma binary_Read_err
  (r : Reader) (o : ByteOrder) (d v : uint16) (e : error) (r' : Reader) :
  binary_Read r o d = (v, Some e, r') ->
  e = short_read_error r /\ (length r < 2)%nat /\ r' = [] /\ v = d.
Proof.
  destruct r as [|c0 [|c1 r0]]; cbn; intros H; try discriminate H;
    injection H as <- <- <-; repeat split; lia.
Qed.

Lemma binary_Read_ok
  (r : Reader) (o : ByteOrder) (d v : uint16) (r' : Reader) :
  binary_Read r o d = (v, None, r') ->
  exists c0 c1, r = c0 :: c1 :: r' /\ v = Uint16 o [c0; c1].
Proof.
  destruct r as [|c0 [|c1 r0]]; try discriminate.
  unfold binary_Read. cbn [io_ReadFull length Nat.ltb Nat.leb firstn skipn].
  intros H. injection H as <- <-. exists c0, c1. split; reflexivity.
Qed.

Lemma Read_err (r : Reader) (n : nat) (got : list byte) (e : error) (r' : Reader) :
  Read r n = (got, Some e, r') -> e = io_EOF /\ r = [] /\ r' = [] /\ got = [].
Proof.
  unfold Read. destruct r; intros H; [|discriminate H].
  injection H as <- <- <-. repeat split.
Qed.

Lemma readFrom_err
  (ret : Packet) (r : Reader) (o : ByteOrder) (p : Packet) (e : error) (r' : Reader) :
  readFrom ret r o = (p, Some e, r') ->
  (e = io_EOF \/ e = io_ErrUnexpectedEOF) /\ r' = [].
Proof.
  assert (Hrq : forall rq x,
             Rq_readFrom rq r o = (x, Some e, r') -> e = io_EOF /\ r' = []).
  { intros rq x. unfold Rq_readFrom.
    destruct (readString r (Filename rq)) as [[f [e1|]] r1] eqn:E1.
    - intros H. injection H as _ H2 H3. subst e1 r1.
      apply readString_err in E1. tauto.
    - destruct (readString r1 (Mode rq)) as [[m err] r2] eqn:E2.
      intros H. injection H as _ H2 H3. subst err r2.
      apply readString_err in E2. tauto. }
  destruct ret as [rq | rq | d | a | x]; cbn [readFrom].
  - destruct (Rq_readFrom rq r o) as [[y err] z] eqn:E.
    intros H. injection H as _ H2 H3. subst err z.
    destruct (Hrq _ _ E) as [-> ->]. split; [left|]; reflexivity.
  - destruct (Rq_readFrom rq r o) as [[y err] z] eqn:E.
    intros H. injection H as _ H2 H3. subst err z.
    destruct (Hrq _ _ E) as [-> ->]. split; [left|]; reflexivity.
  - unfold Data_readFrom.
    destruct (binary_Read r o (Data_BlockNum d)) as [[bn [e1|]] r1] eqn:E1.
    + intros H. injection H as _ H2 H3. subst e1 r1.
      apply binary_Read_err in E1. destruct E1 as (-> & _ & -> & _).
      split; [apply short_read_error_cases | reflexivity].
    + destruct (Read r1 512) as [[got err] r2] eqn:E2.
      intros H. injection H as _ H2 H3. subst err r2.
      apply Read_err in E2. destruct E2 as (-> & _ & -> & _).
      split; [left|]; reflexivity.
  - unfold Ack_readFrom.
    destruct (binary_Read r o (Ack_BlockNum a)) as [[bn err] r1] eqn:E1.
    intros H. injection H as _ H2 H3. subst err r1.
    apply binary_Read_err in E1. destruct E1 as (-> & _ & -> & _).
    split; [apply short_read_error_cases | reflexivity].
  - unfold Error_readFrom.
    destruct (binary_Read r o (ErrorCode x)) as [[c [e1|]] r1] eqn:E1.
    + intros H. injection H as _ H2 H3. subst e1 r1.
      apply binary_Read_err in E1. destruct E1 as (-> & _ & -> & _).
      split; [apply short_read_error_cases | reflexivity].
    + destruct (readString r1 (ErrorMsg x)) as [[m err] r2] eqn:E2.
      intros H. injection H as _ H2 H3. subst err r2.
      apply readString_err in E2. destruct E2 as (-> & _ & -> & _).
      split; [left|]; reflexivity.
Qed.

(** X5. Whatever the datagram, an error that [ReadPacket] returns is
    [io.EOF] or [io.ErrUnexpectedEOF], and the reader is then exhausted:
    the only way decoding fails with an error is by running out of
    input. *)
Theorem ReadPacket_error_is_end_of_input
  (r : Reader) (ret : iface) (order : option ByteOrder) (e : error) (r' : Reader) :
  ReadPacket r = (Return ret order (Some e), r') ->
  (e = io_EOF \/ e = io_ErrUnexpectedEOF) /\ r' = [].
Proof.
  destruct r as [|b0 [|b1 body]].
  - intros H. injection H as _ _ <- <-. split; [left|]; reflexivity.
  - intros H. injection H as _ _ <- <-. split; [right|]; reflexivity.
  - rewrite ReadPacket_cons.
    destruct (detect (Uint16 LittleEndian [b0; b1])) as [op o].
    destruct (newPacket op) as [p0|]; [|discriminate].
    destruct (readFrom p0 body o) as [[p err] r2] eqn:E.
    intros H. injection H as _ _ H2 H3. subst err r2.
    apply (readFrom_err _ _ _ _ _ _ E).
Qed.

Lemma ReadPacket_error_is_end_of_input_witness :
  (io_ErrUnexpectedEOF = io_EOF \/ io_ErrUnexpectedEOF = io_ErrUnexpectedEOF) /\
  @nil byte = [].
Proof.
  exact (ReadPacket_error_is_end_of_input
           [x04; x00; x07] (Some (PAck (mkAck 0))) (Some LittleEndian)
           io_ErrUnexpectedEOF [] eq_refl).
Defined.

(** X7. A Data, Ack or Error datagram, in either byte order, with fewer
    than two bytes after the opcode: [ReadPacket] returns the packet of
    that variant with all its fields zero, the detected order and the
    error of the short read, [io.EOF] when nothing follows the opcode and
    [io.ErrUnexpectedEOF] when one byte does. *)
Theorem truncated_numeric_field
  (order : ByteOrder) (op : uint16) (body : Reader) :
  op = DATA \/ op = ACK \/ op = ERROR ->
  (length body < 2)%nat ->
  exists ret,
    newPacket op = Some ret /\
    ReadPacket (PutUint16 order op ++ body) =
      (Return (Some ret) (Some order) (Some (short_read_error body)), []).
Proof.
  intros Hop Hlen.
  destruct Hop as [-> | [-> | ->]]; eexists; (split; [reflexivity|]);
    erewrite ReadPacket_opcode by reflexivity; cbn [readFrom];
    unfold Data_readFrom, Ack_readFrom, Error_readFrom;
    rewrite (binary_Read_short body order _ Hlen); reflexivity.
Qed.

Lemma truncated_numeric_field_witness :
  ReadPacket [x00; x05; x01] =
  (Return (Some (PError (mkError 0 []))) (Some BigEndian) (Some io_ErrUnexpectedEOF), []).
Proof.
  destruct (truncated_numeric_field BigEndian ERROR [x01]) as (ret & Hnew & H).
  - right. right. reflexivity.
  - cbn. lia.
  - injection Hnew as <-. exact H.
Defined.

(** ** The Ack, Error and Data parsers on whole datagrams *)

(** X6. An Ack datagram in either byte order, opcode then block number:
    [ReadPacket] returns the Ack with that block number and the order,
    without error, and whatever follows the block number is left unread
    in the reader. *)
Theorem Ack_decode (order : ByteOrder) (bn : uint16) (rest : Reader) :
  is_uint16 bn ->
  ReadPacket (PutUint16 order ACK ++ PutUint16 order bn ++ rest) =
    (Return (Some (PAck (mkAck bn))) (Some order) None, rest).
Proof.
  intros Hbn. erewrite ReadPacket_opcode by reflexivity.
  cbn [readFrom]. unfold Ack_readFrom.
  rewrite binary_Read_PutUint16 by exact Hbn. reflexivity.
Qed.

Lemma Ack_decode_witness :
  ReadPacket (PutUint16 BigEndian ACK ++ PutUint16 BigEndian 65535 ++ [x2a]) =
    (Return (Some (PAck (mkAck 65535))) (Some BigEndian) None, [x2a]).
Proof. apply (Ack_decode BigEndian 65535 [x2a]). unfold is_uint16. lia. Defined.

(** X8. An Error datagram in either byte order, opcode, error code, and a
    NUL-free message followed by a NUL: [ReadPacket] returns the Error
    packet with that code and message and the order, without error, and
    leaves the reader just after the NUL. *)
Theorem Error_decode
  (order : ByteOrder) (code : uint16) (msg : gostring) (rest : Reader) :
  is_uint16 code -> ~ In x00 msg ->
  ReadPacket (PutUint16 order ERROR ++ PutUint16 order code ++ msg ++ x00 :: rest) =
    (Return (Some (PError (mkError code msg))) (Some order) None, rest).
Proof.
  intros Hcode Hmsg. erewrite ReadPacket_opcode by reflexivity.
  cbn [readFrom]. unfold Error_readFrom.
  rewrite binary_Read_PutUint16 by exact Hcode.
  rewrite (readString_terminated msg _ _ Hmsg). reflexivity.
Qed.

Lemma Error_decode_witness :
  ReadPacket (PutUint16 LittleEndian ERROR ++ PutUint16 LittleEndian 4 ++ [x61] ++ x00 :: []) =
    (Return (Some (PError (mkError 4 [x61]))) (Some LittleEndian) None, []).
Proof.
  apply (Error_decode LittleEndian 4 [x61] []).
  - unfold is_uint16. lia.
  - exact not_In_x00_a.
Defined.

(** X9. An Error datagram whose message has no NUL: [ReadPacket] returns
    [io.EOF], with an Error packet that has the code and an empty
    message; the reader is exhausted. *)
Theorem Error_unterminated_message
  (order : ByteOrder) (code : uint16) (tail : Reader) :
  is_uint16 code -> ~ In x00 tail ->
  ReadPacket (PutUint16 order ERROR ++ PutUint16 order code ++ tail) =
    (Return (Some (PError (mkError code []))) (Some order) (Some io_EOF), []).
Proof.
  intros Hcode Htail. erewrite ReadPacket_opcode by reflexivity.
  cbn [readFrom]. unfold Error_readFrom.
  rewrite binary_Read_PutUint16 by exact Hcode.
  rewrite (readString_unterminated tail _ Htail). reflexivity.
Qed.

Lemma Error_unterminated_message_witness :
  ReadPacket (PutUint16 BigEndian ERROR ++ PutUint16 BigEndian 1 ++ [x61]) =
    (Return (Some (PError (mkError 1 []))) (Some BigEndian) (Some io_EOF), []).
Proof.
  apply (Error_unterminated_message BigEndian 1 [x61]).
  - unfold is_uint16. lia.
  - exact not_In_x00_a.
Defined.

Lemma copy_firstn_block (payload : list byte) :
  copy (repeat x00 512) (firstn 512 payload) =
  firstn 512 payload ++ repeat x00 (512 - length payload).
Proof.
  rewrite copy_into_block by apply firstn_le_length.
  rewrite length_firstn. f_equal. f_equal. lia.
Qed.

(** X10. A Data datagram in either byte order with at least one byte after
    the block number: [ReadPacket] succeeds; the decoded payload is the
    first 512 of those bytes (all of them when there are fewer), followed
    by zero bytes up to 512; bytes beyond the first 512 stay unread in
    the reader. *)
Theorem Data_decode
  (order : ByteOrder) (bn : uint16) (payload : list byte) :
  is_uint16 bn -> payload <> [] ->
  ReadPacket (PutUint16 order DATA ++ PutUint16 order bn ++ payload) =
    (Return
       (Some (PData (mkData bn (firstn 512 payload
                                ++ repeat x00 (512 - length payload)))))
       (Some order) None,
     skipn 512 payload).
Proof.
  intros Hbn Hne. erewrite ReadPacket_opcode by reflexivity.
  cbn [readFrom]. unfold Data_readFrom.
  rewrite binary_Read_PutUint16 by exact Hbn.
  destruct payload as [|b payload']; [contradiction|].
  unfold Read. rewrite copy_firstn_block. reflexivity.
Qed.

Lemma Data_decode_witness :
  ReadPacket (PutUint16 LittleEndian DATA ++ PutUint16 LittleEndian 2
              ++ repeat x61 513) =
    (Return
       (Some (PData (mkData 2 (firstn 512 (repeat x61 513)
                               ++ repeat x00 (512 - length (repeat x61 513))))))
       (Some LittleEndian) None,
     skipn 512 (repeat x61 513)).
Proof.
  apply (Data_decode LittleEndian 2 (repeat x61 513)).
  - unfold is_uint16. lia.
  - discriminate.
Defined.

(** X11. Every Data packet that [ReadPacket] returns without error has a
    payload slice of exactly 512 bytes, and comes from a datagram of at
    least five bytes. *)
Theorem decoded_Data_payload_is_512
  (src : Reader) (d : Data) (order : option ByteOrder) (rest : Reader) :
  ReadPacket src = (Return (Some (PData d)) order None, rest) ->
  length (Data_Data d) = 512%nat /\ (5 <= length src)%nat.
Proof.
  destruct src as [|b0 [|b1 body]]; try discriminate.
  rewrite ReadPacket_cons.
  destruct (detect (Uint16 LittleEndian [b0; b1])) as [op o].
  destruct (newPacket op) as [p0|]; [|discriminate].
  destruct (readFrom p0 body o) as [[p err] r2] eqn:E.
  intros H. injection H as H1 _ H2 H3. subst p err r2.
  destruct p0 as [rq | rq | d0 | a | e]; cbn [readFrom] in E.
  - destruct (Rq_readFrom rq body o) as [[x y] z]. discriminate E.
  - destruct (Rq_readFrom rq body o) as [[x y] z]. discriminate E.
  - destruct (Data_readFrom d0 body o) as [[x y] z] eqn:Ed.
    injection E as H1 H2 H3. subst x y z.
    split; [apply (Data_readFrom_length _ _ _ _ _ Ed)|].
    unfold Data_readFrom in Ed.
    destruct (binary_Read body o (Data_BlockNum d0)) as [[bn [e1|]] r1] eqn:E1;
      [discriminate Ed|].
    apply binary_Read_ok in E1. destruct E1 as (c0 & c1 & -> & _).
    destruct r1 as [|c2 r1']; [discriminate Ed|]. cbn [length]. lia.
  - destruct (Ack_readFrom a body o) as [[x y] z]. discriminate E.
  - destruct (Error_readFrom e body o) as [[x y] z]. discriminate E.
Qed.

Lemma decoded_Data_payload_is_512_witness :
  length (x61 :: repeat x00 511) = 512%nat /\
  (5 <= length [x03; x00; x01; x00; x61])%nat.
Proof.
  apply (decoded_Data_payload_is_512
           [x03; x00; x01; x00; x61] (mkData 1 (x61 :: repeat x00 511))
           (Some LittleEndian) []).
  vm_compute. reflexivity.
Defined.

(** ** What a successful decode has consumed *)

Lemma Rq_readFrom_ok (rq0 rq : Rq) (body : Reader) (o : ByteOrder) (r' : Reader) :
  Rq_readFrom rq0 body o = (rq, None, r') ->
  body = Filename rq ++ x00 :: Mode rq ++ x00 :: r' /\
  ~ In x00 (Filename rq) /\ ~ In x00 (Mode rq).
Proof.
  unfold Rq_readFrom.
  destruct (readString body (Filename rq0)) as [[f [e|]] r1] eqn:E1; [discriminate|].
  destruct (readString r1 (Mode rq0)) as [[m err] r2] eqn:E2.
  intros H. injection H as H1 H2 H3. subst rq err r'.
  apply readString_ok in E1, E2. destruct E1 as [-> Hf], E2 as [-> Hm].
  cbn [Filename Mode]. repeat split; assumption.
Qed.

Lemma readFrom_ok_consumed
  (p0 p : Packet) (body : Reader) (o : ByteOrder) (rest : Reader) :
  readFrom p0 body o = (p, None, rest) ->
  exists c, body = c ++ rest /\ (2 <= length c)%nat.
Proof.
  destruct p0 as [rq | rq | d | a | e]; cbn [readFrom].
  - destruct (Rq_readFrom rq body o) as [[x err] z] eqn:E.
    intros H. injection H as _ H2 H3. subst err z.
    apply Rq_readFrom_ok in E. destruct E as (-> & _ & _).
    exists (Filename x ++ x00 :: Mode x ++ [x00]). split.
    + rewrite <- !app_assoc. cbn [app]. rewrite <- app_assoc. reflexivity.
    + rewrite length_app. cbn [length]. rewrite length_app. cbn [length]. lia.
  - destruct (Rq_readFrom rq body o) as [[x err] z] eqn:E.
    intros H. injection H as _ H2 H3. subst err z.
    apply Rq_readFrom_ok in E. destruct E as (-> & _ & _).
    exists (Filename x ++ x00 :: Mode x ++ [x00]). split.
    + rewrite <- !app_assoc. cbn [app]. rewrite <- app_assoc. reflexivity.
    + rewrite length_app. cbn [length]. rewrite length_app. cbn [length]. lia.
  - unfold Data_readFrom.
    destruct (binary_Read body o (Data_BlockNum d)) as [[bn [e1|]] r1] eqn:E1;
      [discriminate|].
    apply binary_Read_ok in E1. destruct E1 as (c0 & c1 & -> & _).
    destruct (Read r1 512) as [[got err] r2] eqn:E2.
    intros H. injection H as _ H2 H3. subst err r2.
    unfold Read in E2. destruct r1 as [|c2 r1']; [discriminate E2|].
    injection E2 as _ <-.
    exists (c0 :: c1 :: firstn 512 (c2 :: r1')). split.
    + cbn [app]. rewrite firstn_skipn. reflexivity.
    + cbn [length]. lia.
  - unfold Ack_readFrom.
    destruct (binary_Read body o (Ack_BlockNum a)) as [[bn err] r1] eqn:E1.
    intros H. injection H as _ H2 H3. subst err r1.
    apply binary_Read_ok in E1. destruct E1 as (c0 & c1 & -> & _).
    exists [c0; c1]. split; [reflexivity | cbn; lia].
  - unfold Error_readFrom.
    destruct (binary_Read body o (ErrorCode e)) as [[c [e1|]] r1] eqn:E1;
      [discriminate|].
    apply binary_Read_ok in E1. destruct E1 as (c0 & c1 & -> & _).
    destruct (readString r1 (ErrorMsg e)) as [[m err] r2] eqn:E2.
    intros H. injection H as _ H2 H3. subst err r2.
    apply readString_ok in E2. destruct E2 as [-> _].
    exists (c0 :: c1 :: m ++ [x00]). split.
    + cbn [app]. rewrite <- app_assoc. reflexivity.
    + cbn [length]. lia.
Qed.

(** X12. When [ReadPacket] returns without error, the packet and the byte
    order are not nil, at least four bytes of the datagram have been
    consumed, and the reader holds exactly what follows them. *)
Theorem successful_decode_consumes_prefix
  (src : Reader) (ret : iface) (order : option ByteOrder) (rest : Reader) :
  ReadPacket src = (Return ret order None, rest) ->
  exists p o consumed,
    ret = Some p /\ order = Some o /\
    src = consumed ++ rest /\ (4 <= length consumed)%nat.
Proof.
  destruct src as [|b0 [|b1 body]]; try discriminate.
  rewrite ReadPacket_cons.
  destruct (detect (Uint16 LittleEndian [b0; b1])) as [op o].
  destruct (newPacket op) as [p0|]; [|discriminate].
  destruct (readFrom p0 body o) as [[p err] r2] eqn:E.
  intros H. injection H as H1 H2 H3 H4. subst ret order err r2.
  destruct (readFrom_ok_consumed _ _ _ _ _ E) as (c & -> & Hc).
  exists p, o, (b0 :: b1 :: c). repeat split. cbn [length]. lia.
Qed.

Lemma successful_decode_consumes_prefix_witness :
  exists p o consumed,
    Some (PAck (mkAck 7)) = Some p /\ Some BigEndian = Some o /\
    [x00; x04; x00; x07; x2a] = consumed ++ [x2a] /\ (4 <= length consumed)%nat.
Proof.
  exact (successful_decode_consumes_prefix
           [x00; x04; x00; x07; x2a] (Some (PAck (mkAck 7))) (Some BigEndian) [x2a]
           eq_refl).
Defined.

(** ** writeString, then readString *)

(** X13. [writeString] on an empty buffer reports one byte more than the
    length of the string and no error; when the string holds no NUL,
    [readString] on what was written, whatever follows it, gives the
    string back and leaves the reader at what follows. *)
Theorem writeString_readString (s old : gostring) (rest : Reader) :
  ~ In x00 s ->
  exists bytes,
    writeString s [] = (Z.of_nat (length s) + 1, None, bytes) /\
    readString (bytes ++ rest) old = (s, None, rest).
Proof.
  intros Hs. exists (s ++ [x00]). split; [reflexivity|].
  rewrite <- app_assoc. cbn [app]. apply readString_terminated, Hs.
Qed.

Lemma writeString_readString_witness :
  exists bytes,
    writeString [x61] [] = (Z.of_nat (length [x61]) + 1, None, bytes) /\
    readString (bytes ++ [x62]) [] = ([x61], None, [x62]).
Proof. exact (writeString_readString [x61] [] [x62] not_In_x00_a). Defined.

(** X14. A string with a NUL inside does not survive: [readString] on
    what [writeString] wrote gives the part before the first NUL, and the
    reader is left with the part after it, its NUL, and what follows. *)
Theorem writeString_readString_embedded_NUL
  (a b old : gostring) (rest : Reader) :
  ~ In x00 a ->
  exists bytes,
    writeString (a ++ x00 :: b) [] =
      (Z.of_nat (length (a ++ x00 :: b)) + 1, None, bytes) /\
    readString (bytes ++ rest) old = (a, None, b ++ x00 :: rest).
Proof.
  intros Ha. exists ((a ++ x00 :: b) ++ [x00]). split; [reflexivity|].
  rewrite <- !app_assoc. cbn [app].
  apply readString_terminated, Ha.
Qed.

Lemma writeString_readString_embedded_NUL_witness :
  exists bytes,
    writeString ([x61] ++ x00 :: [x62]) [] =
      (Z.of_nat (length ([x61] ++ x00 :: [x62])) + 1, None, bytes) /\
    readString (bytes ++ []) [] = ([x61], None, [x62] ++ x00 :: []).
Proof.
  exact (writeString_readString_embedded_NUL [x61] [x62] [] [] not_In_x00_a).
Defined.

(** * Further properties of the write-transfer *)

Lemma Read_loop_Returned (goal soFar : nat) :
  forall fuel r n err r',
    Read_loop fuel goal soFar r = Returned n err r' ->
    (goal <= soFar)%nat /\ n = 0 /\ err = None.
Proof.
  induction fuel as [|fuel IH]; intros r n err r'; cbn [Read_loop];
    destruct (Nat.ltb_spec soFar goal) as [Hlt | Hge].
  - discriminate.
  - intros H. injection H as <- <- _. repeat split. exact Hge.
  - destruct (Read_body r) as [r1 | v r1 | r1]; try discriminate. apply IH.
  - intros H. injection H as <- <- _. repeat split. exact Hge.
Qed.

(** X15. [Read] returns only when it is asked for nothing.  With an empty
    [p] it returns at once, [n = 0] and a nil error, the transfer
    untouched; with a non-empty [p] it never returns, whatever the buffer
    and the inbound traffic and however long it runs. *)
Theorem PutReq_Read_returns_iff_empty_request
  (fuel : nat) (r : PutReq) (p : list byte) :
  (p = [] -> PutReq_Read fuel r p = Returned 0 None r) /\
  (forall n err r', PutReq_Read fuel r p = Returned n err r' -> p = []).
Proof.
  split.
  - intros ->. destruct fuel; reflexivity.
  - intros n err r' H. unfold PutReq_Read in H.
    apply Read_loop_Returned in H. destruct H as (Hle & _ & _).
    destruct p; [reflexivity | cbn [length] in Hle; lia].
Qed.

(** X16. With bytes already in the buffer and a non-empty [p], [Read]
    delivers none of them: it stays in the loop with [soFar = 0], and
    receives nothing, sends nothing and leaves the buffer as it is. *)
Theorem PutReq_Read_buffered_bytes_stay
  (fuel : nat) (r : PutReq) (p : list byte) :
  data r <> [] -> p <> [] ->
  PutReq_Read fuel r p = Looping 0 r.
Proof.
  intros Hdata Hp. unfold PutReq_Read.
  apply Read_loop_spins; [exact Hdata|].
  destruct p; [contradiction | cbn [length]; lia].
Qed.

Lemma PutReq_Read_buffered_bytes_stay_witness :
  PutReq_Read 50 (mkPutReq [Some (PAck (mkAck 0))] [] [x61; x62]) [x00]
  = Looping 0 (mkPutReq [Some (PAck (mkAck 0))] [] [x61; x62]).
Proof.
  apply (PutReq_Read_buffered_bytes_stay 50
           (mkPutReq [Some (PAck (mkAck 0))] [] [x61; x62]) [x00]); discriminate.
Defined.

(** Data packets without payload are received one after the other. *)
Lemma Read_loop_skips_empty_Data (goal : nat) (out0 : chan) (rest : chan) :
  (0 < goal)%nat ->
  forall empties fuel,
    Forall empty_Data empties ->
    Read_loop (length empties + fuel) goal 0 (mkPutReq (empties ++ rest) out0 [])
    = Read_loop fuel goal 0 (mkPutReq rest out0 []).
Proof.
  intros Hgoal.
  assert (Htest : (0 <? goal)%nat = true) by (apply Nat.ltb_lt; exact Hgoal).
  induction empties as [|pkt empties IH]; intros fuel Hall.
  - reflexivity.
  - inversion Hall as [|? ? (d & -> & Hd) Hall']; subst.
    cbn [length Nat.add app Read_loop]. rewrite Htest.
    cbn [Read_body data length Nat.eqb in_ out]. rewrite Hd.
    apply IH, Hall'.
Qed.

(** X17. A write-transfer with an empty buffer and a non-empty [p], whose
    inbound traffic starts with any number of Data packets without
    payload: [Read] receives all of them.  If a Data packet with a payload
    comes next, that payload becomes the buffer and [Read] stays in the
    loop; if a packet that is not a Data packet comes next, [Read]
    panics with 4; if nothing comes next, [Read] blocks on the receive.
    Nothing is sent in any case. *)
Theorem PutReq_Read_after_empty_Data
  (empties rest out0 : chan) (p : list byte) (fuel : nat) :
  Forall empty_Data empties -> p <> [] ->
  (forall d, Data_Data d <> [] ->
     PutReq_Read (length empties + S fuel)
       (mkPutReq (empties ++ Some (PData d) :: rest) out0 []) p
     = Looping 0 (mkPutReq rest out0 (Data_Data d))) /\
  (forall pkt, (forall d, pkt <> Some (PData d)) ->
     PutReq_Read (length empties + S fuel)
       (mkPutReq (empties ++ pkt :: rest) out0 []) p
     = Panicked 4 (mkPutReq rest out0 [])) /\
  PutReq_Read (length empties + S fuel) (mkPutReq (empties ++ []) out0 []) p
  = Blocked 0 (mkPutReq [] out0 []).
Proof.
  intros Hall Hp.
  assert (Hgoal : (0 < length p)%nat) by (destruct p; [contradiction | cbn; lia]).
  assert (Htest : (0 <? length p)%nat = true) by (apply Nat.ltb_lt; exact Hgoal).
  unfold PutReq_Read. repeat split.
  - intros d Hd. rewrite (Read_loop_skips_empty_Data _ _ _ Hgoal _ _ Hall).
    cbn [Read_loop]. rewrite Htest. cbn [Read_body data length Nat.eqb in_ out].
    apply Read_loop_spins; [exact Hd | exact Hgoal].
  - intros pkt Hpkt. rewrite (Read_loop_skips_empty_Data _ _ _ Hgoal _ _ Hall).
    cbn [Read_loop]. rewrite Htest. cbn [Read_body data length Nat.eqb in_ out].
    destruct pkt as [[rq | rq | d | a | e]|]; try reflexivity.
    exfalso. apply (Hpkt d). reflexivity.
  - rewrite (Read_loop_skips_empty_Data _ _ _ Hgoal _ _ Hall).
    apply Read_loop_starves; [reflexivity | reflexivity | exact Hgoal].
Qed.

Lemma empty_Data_block (bn : uint16) : empty_Data (Some (PData (mkData bn []))).
Proof. exists (mkData bn []). split; reflexivity. Qed.

Lemma PutReq_Read_after_empty_Data_witness :
  PutReq_Read 4
    (mkPutReq [Some (PData (mkData 1 [])); Some (PData (mkData 2 []));
               Some (PData (mkData 3 [x61])); Some (PAck (mkAck 0))] [] []) [x00]
  = Looping 0 (mkPutReq [Some (PAck (mkAck 0))] [] [x61]) /\
  PutReq_Read 4
    (mkPutReq [Some (PData (mkData 1 [])); Some (PData (mkData 2 []));
               Some (PRrq (mkRq [] []))] [] []) [x00]
  = Panicked 4 (mkPutReq [] [] []) /\
  PutReq_Read 4
    (mkPutReq [Some (PData (mkData 1 [])); Some (PData (mkData 2 []))] [] []) [x00]
  = Blocked 0 (mkPutReq [] [] []).
Proof.
  assert (Hall : Forall empty_Data
                   [Some (PData (mkData 1 [])); Some (PData (mkData 2 []))]).
  { repeat constructor; apply empty_Data_block. }
  assert (Hp : [x00] <> []) by discriminate.
  split; [|split].
  - destruct (PutReq_Read_after_empty_Data _ [Some (PAck (mkAck 0))] [] [x00] 1 Hall Hp)
      as (H & _ & _).
    apply (H (mkData 3 [x61])). discriminate.
  - destruct (PutReq_Read_after_empty_Data _ [] [] [x00] 1 Hall Hp) as (_ & H & _).
    apply (H (Some (PRrq (mkRq [] [])))). intros d E. discriminate E.
  - destruct (PutReq_Read_after_empty_Data _ [] [] [x00] 1 Hall Hp) as (_ & _ & H).
    exact H.
Defined.

Lemma Read_loop_in_suffix (goal soFar : nat) :
  forall fuel r,
    exists consumed, in_ r = consumed ++ in_ (final (Read_loop fuel goal soFar r)).
Proof.
  induction fuel as [|fuel IH]; intros r; cbn [Read_loop];
    destruct (soFar <? goal)%nat; try (exists []; reflexivity).
  unfold Read_body. destruct (length (data r) =? 0)%nat.
  - destruct (in_ r) as [|pkt rest] eqn:Hin.
    + exists []. cbn [final app]. symmetry. exact Hin.
    + destruct pkt as [[rq | rq | d | a | e]|];
        try (exists [Some (PRrq rq)]; reflexivity);
        try (exists [Some (PWrq rq)]; reflexivity);
        try (exists [Some (PAck a)]; reflexivity);
        try (exists [Some (PError e)]; reflexivity);
        try (exists [@None Packet]; reflexivity).
      destruct (IH (mkPutReq rest (out r) (Data_Data d))) as [c Hc].
      exists (Some (PData d) :: c). cbn [in_ app] in *. rewrite <- Hc. reflexivity.
  - apply IH.
Qed.

(** X18. Whatever the transfer, the request and the time it runs, [Read]
    takes inbound packets from the front of the channel only, in order,
    and sends nothing: the inbound channel it leaves is a suffix of the
    one it found, and the outbound channel is the one it found. *)
Theorem PutReq_Read_channels (fuel : nat) (r : PutReq) (p : list byte) :
  (exists consumed, in_ r = consumed ++ in_ (final (PutReq_Read fuel r p))) /\
  out (final (PutReq_Read fuel r p)) = out r.
Proof.
  split; [apply Read_loop_in_suffix | apply Read_loop_out].
Qed.

Lemma PutReq_Read_returns_iff_empty_request_witness :
  PutReq_Read 3 (mkPutReq [Some (PAck (mkAck 0))] [] [x61]) []
  = Returned 0 None (mkPutReq [Some (PAck (mkAck 0))] [] [x61]).
Proof.
  destruct (PutReq_Read_returns_iff_empty_request 3
              (mkPutReq [Some (PAck (mkAck 0))] [] [x61]) []) as [H _].
  exact (H eq_refl).
Defined.
